(** * A two-pass assembler and its stack machine

    Shallow embedding of [asm_compiler_vm.py]: the [AssemblyCompiler]
    (line parser, label table, resolution pass) and the [VirtualMachine]
    (fetch / dispatch loop, faults, [run]).

    Modelling conventions.
    - A Python [str] is a [string] of 8-bit characters read as ASCII code
      points.  The Unicode-aware primitives of Python ([str.isspace],
      [str.isalpha], [str.upper], the regular-expression class [\w],
      [str.splitlines], [int]) are given by their restriction to ASCII;
      a character above 127 belongs to no class.
    - A Python [int] is a [Z]; [//] is [Z.div], both round to minus
      infinity.
    - A Python list used as a stack ([append] / [pop] at the end) is a Rocq
      list whose head is the top of the stack.
    - An exception is a value: functions that can raise return a [result],
      and the machine step returns the state reached when the exception
      was raised, since [run] catches it and the object stays alive.
    - [print] appends one line to an output list.
    - The [while] loop of [run] need not terminate; it takes a fuel. *)

From Stdlib Require Import ZArith Lia Bool Ascii.
From stdpp Require Import base option list gmap strings pretty.

Open Scope Z_scope.

(** ** Python string primitives, on ASCII *)

Module Py.

Definition ord (c : ascii) : N := N_of_ascii c.

Definition between (lo hi : N) (c : ascii) : bool :=
  ((lo <=? ord c) && (ord c <=? hi))%N.

(** [str.isspace] on one character: TAB, LF, VT, FF, CR, FS, GS, RS, US
    and the space. *)
Definition isspace (c : ascii) : bool := between 9 13 c || between 28 32 c.

Definition isupper (c : ascii) : bool := between 65 90 c.
Definition islower (c : ascii) : bool := between 97 122 c.
Definition isalpha_char (c : ascii) : bool := isupper c || islower c.
Definition isdigit (c : ascii) : bool := between 48 57 c.

(** The class [\w]: letters, digits and the underscore. *)
Definition isword (c : ascii) : bool :=
  isalpha_char c || isdigit c || (ord c =? 95)%N.

(** The characters at which [str.splitlines] cuts: LF, VT, FF, CR, FS, GS,
    RS. *)
Definition islinebreak (c : ascii) : bool := between 10 13 c || between 28 30 c.

Definition upper_char (c : ascii) : ascii :=
  if islower c then ascii_of_N (ord c - 32) else c.

Fixpoint upper (s : string) : string :=
  match s with
  | EmptyString => EmptyString
  | String c s' => String (upper_char c) (upper s')
  end.

Fixpoint all_chars (p : ascii → bool) (s : string) : bool :=
  match s with
  | EmptyString => true
  | String c s' => p c && all_chars p s'
  end.

Fixpoint any_char (p : ascii → bool) (s : string) : bool :=
  match s with
  | EmptyString => false
  | String c s' => p c || any_char p s'
  end.

Definition is_empty (s : string) : bool :=
  match s with EmptyString => true | String _ _ => false end.

(** [str.isalpha]: at least one character and all of them letters. *)
Definition isalpha (s : string) : bool :=
  negb (is_empty s) && all_chars isalpha_char s.

Definition snoc (s : string) (c : ascii) : string := s +:+ String c EmptyString.

(** [str.splitlines]: [cur] is the line being read.  CR LF is one break; a
    break at the very end opens no further line. *)
Fixpoint splitlines_from (cur s : string) : list string :=
  match s with
  | EmptyString => if is_empty cur then [] else [cur]
  | String c s' =>
      if islinebreak c then
        match s' with
        | String c' s'' =>
            if ((ord c =? 13) && (ord c' =? 10))%N
            then cur :: splitlines_from EmptyString s''
            else cur :: splitlines_from EmptyString s'
        | EmptyString => [cur]
        end
      else splitlines_from (snoc cur c) s'
  end.

Definition splitlines (s : string) : list string := splitlines_from EmptyString s.

Fixpoint lstrip (s : string) : string :=
  match s with
  | EmptyString => EmptyString
  | String c s' => if isspace c then lstrip s' else s
  end.

Fixpoint rstrip (s : string) : string :=
  match s with
  | EmptyString => EmptyString
  | String c s' =>
      let r := rstrip s' in
      if isspace c && is_empty r then EmptyString else String c r
  end.

(** [str.strip()] *)
Definition strip (s : string) : string := rstrip (lstrip s).

(** [str.split()]: the maximal runs of characters that are not spaces. *)
Fixpoint split_from (cur s : string) : list string :=
  match s with
  | EmptyString => if is_empty cur then [] else [cur]
  | String c s' =>
      if isspace c
      then (if is_empty cur then split_from EmptyString s'
            else cur :: split_from EmptyString s')
      else split_from (snoc cur c) s'
  end.

Definition split (s : string) : list string := split_from EmptyString s.

(** [re.sub(r';.*$', '', line)] on a line without line feed: everything
    from the first semicolon on is dropped. *)
Fixpoint remove_comment (s : string) : string :=
  match s with
  | EmptyString => EmptyString
  | String c s' =>
      if (ord c =? 59)%N then EmptyString else String c (remove_comment s')
  end.

(** The longest prefix of [\w] characters, and what follows it. *)
Fixpoint word_prefix (s : string) : string * string :=
  match s with
  | EmptyString => (EmptyString, EmptyString)
  | String c s' =>
      if isword c
      then let '(w, rest) := word_prefix s' in (String c w, rest)
      else (EmptyString, s)
  end.

(** [re.match(r'(\w+):', line)], giving group 1.  The colon is not a [\w]
    character, so the greedy [\w+] has nothing to give back: the match
    succeeds exactly when the longest [\w] prefix is not empty and a colon
    follows it. *)
Definition label_match (line : string) : option string :=
  match word_prefix line with
  | (String c w, String d _) =>
      if (ord d =? 58)%N then Some (String c w) else None
  | _ => None
  end.

Definition digit_value (c : ascii) : option Z :=
  if isdigit c then Some (Z.of_N (ord c) - 48) else None.

(** The digits of an [int] literal: decimal digits, with single underscores
    allowed between two digits.  [prev] tells whether the character just
    read was a digit. *)
Fixpoint int_digits (acc : Z) (prev : bool) (s : string) : option Z :=
  match s with
  | EmptyString => if prev then Some acc else None
  | String c s' =>
      match digit_value c with
      | Some d => int_digits (10 * acc + d) true s'
      | None =>
          if (ord c =? 95)%N && prev then int_digits acc false s' else None
      end
  end.

(** [int(s)] for a string without spaces: an optional sign, then the
    digits.  [None] stands for [ValueError]. *)
Definition int (s : string) : option Z :=
  match s with
  | String c s' =>
      if (ord c =? 45)%N then Z.opp <$> int_digits 0 false s'
      else if (ord c =? 43)%N then int_digits 0 false s'
      else int_digits 0 false s
  | EmptyString => None
  end.

(** [str(n)] for an [int]. *)
Definition str (n : Z) : string := pretty n.

End Py.

(** ** Results of functions that can raise *)

Inductive result (E A : Type) : Type :=
  | Ok (a : A)
  | Err (e : E).
Arguments Ok {E A} a.
Arguments Err {E A} e.

#[global] Instance result_bind {E} : MBind (result E) := λ A B k r,
  match r with
  | Ok a => k a
  | Err e => Err e
  end.

(** ** The instruction set *)

Inductive Instruction : Set :=
  | PUSH | POP | ADD | SUB | MUL | DIV | STORE | LOAD
  | JMP | JZ | JNZ | CALL | RET | PRINT | HALT.

#[global] Instance Instruction_eq_dec : EqDecision Instruction.
Proof. solve_decision. Defined.

(** The second component of an instruction tuple while the compiler works
    on it: [None], an [int], or the name of a label still to be resolved. *)
Inductive operand : Type :=
  | NoOperand
  | Int (n : Z)
  | Label (name : string).

Definition is_label (o : operand) : bool :=
  match o with Label _ => true | _ => false end.

(** ** The assembler *)

Module AssemblyCompiler.

(** What the compiler raises: its three [ValueError]s, by the text they are
    built from, and the [IndexError] that the subscript [parts[0]] would
    raise on a line without token. *)
Inductive compile_error : Type :=
  | UnknownInstruction (token : string)
  | InvalidOperand (token : string)
  | UndefinedLabel (name : string)
  | PartsIndexError.

Definition message (e : compile_error) : string :=
  match e with
  | UnknownInstruction t => "Unknown instruction: " +:+ t
  | InvalidOperand t => "Invalid operand: " +:+ t
  | UndefinedLabel n => "Undefined label: " +:+ n
  | PartsIndexError => "list index out of range"
  end.

Definition mnemonics : list (string * Instruction) :=
  [ ("PUSH", PUSH); ("POP", POP); ("ADD", ADD); ("SUB", SUB); ("MUL", MUL);
    ("DIV", DIV); ("STORE", STORE); ("LOAD", LOAD); ("JMP", JMP); ("JZ", JZ);
    ("JNZ", JNZ); ("CALL", CALL); ("RET", RET); ("PRINT", PRINT);
    ("HALT", HALT) ].

Definition instruction_map : gmap string Instruction := list_to_map mnemonics.

(** The two fields [compile] works on. *)
Record state : Type := mkState {
  labels : gmap string nat;
  instructions : list (Instruction * operand)
}.

(** The operand of [parse_line]: [parts] are the tokens of the line. *)
Definition parse_operand (parts : list string) : result compile_error operand :=
  match parts with
  | _ :: operand_str :: _ =>
      if Py.isalpha operand_str then Ok (Label operand_str)
      else match Py.int operand_str with
           | Some n => Ok (Int n)
           | None => Err (InvalidOperand operand_str)
           end
  | _ => Ok NoOperand
  end.

(** The text [parse_line] works on, comment removed and spaces trimmed. *)
Definition clean (line : string) : string := Py.strip (Py.remove_comment line).

(** [parse_line]: the state after the call (a label line writes the label
    table) and the value returned, or the error raised. *)
Definition parse_line (st : state) (line : string)
  : result compile_error (state * option (Instruction * operand)) :=
  let line := clean line in
  if Py.is_empty line then Ok (st, None)
  else match Py.label_match line with
  | Some label =>
      Ok (mkState (<[label := length (instructions st)]> (labels st))
                  (instructions st), None)
  | None =>
      match Py.split line with
      | [] => Err PartsIndexError
      | (name :: _) as parts =>
          let instruction_name := Py.upper name in
          match instruction_map !! instruction_name with
          | None => Err (UnknownInstruction instruction_name)
          | Some instruction =>
              operand ← parse_operand parts;
              Ok (st, Some (instruction, operand))
          end
      end
  end.

(** First pass of [compile]: the loop over the lines. *)
Fixpoint first_pass (st : state) (lines : list string) : result compile_error state :=
  match lines with
  | [] => Ok st
  | line :: lines' =>
      r ← parse_line st line;
      match r with
      | (st', Some result) =>
          first_pass (mkState (labels st') (instructions st' ++ [result])) lines'
      | (st', None) => first_pass st' lines'
      end
  end.

(** Second pass of [compile]: the loop that replaces label names.  The
    Python loop overwrites the entries of the list one by one and raises
    at the first name that is not in the table. *)
Fixpoint second_pass (labels : gmap string nat) (instrs : list (Instruction * operand))
  : result compile_error (list (Instruction * operand)) :=
  match instrs with
  | [] => Ok []
  | (instr, Label name) :: rest =>
      match labels !! name with
      | Some index =>
          rest' ← second_pass labels rest;
          Ok ((instr, Int (Z.of_nat index)) :: rest')
      | None => Err (UndefinedLabel name)
      end
  | entry :: rest =>
      rest' ← second_pass labels rest;
      Ok (entry :: rest')
  end.

Definition initial : state := mkState ∅ [].

Definition compile (source : string)
  : result compile_error (list (Instruction * operand)) :=
  let lines := Py.splitlines source in
  st ← first_pass initial lines;
  second_pass (labels st) (instructions st).

End AssemblyCompiler.

(** ** The virtual machine *)

Module VirtualMachine.

(** What [execute_instruction] raises.  All are [ValueError]s except the
    last, the [IndexError] of the subscript [self.program[self.ip]]. *)
Inductive fault : Type :=
  | MissingOperand (opcode : Instruction)
  | StackUnderflow
  | DivisionByZero
  | MemoryOutOfBounds (address : Z)
  | CallStackUnderflow
  | IndexOutOfRange.

Definition mnemonic (i : Instruction) : string :=
  match i with
  | PUSH => "PUSH" | POP => "POP" | ADD => "ADD" | SUB => "SUB"
  | MUL => "MUL" | DIV => "DIV" | STORE => "STORE" | LOAD => "LOAD"
  | JMP => "JMP" | JZ => "JZ" | JNZ => "JNZ" | CALL => "CALL"
  | RET => "RET" | PRINT => "PRINT" | HALT => "HALT"
  end.

(** [str(e)] of the exception. *)
Definition message (f : fault) : string :=
  match f with
  | MissingOperand i => mnemonic i +:+ " instruction requires an operand"
  | StackUnderflow => "Stack underflow"
  | DivisionByZero => "Division by zero"
  | MemoryOutOfBounds a => "Memory address out of bounds: " +:+ Py.str a
  | CallStackUnderflow => "Call stack underflow"
  | IndexOutOfRange => "list index out of range"
  end.

Definition Program : Type := list (Instruction * option Z).

Record VM : Type := mkVM {
  stack : list Z;
  memory : list Z;
  call_stack : list Z;
  program : Program;
  ip : Z;
  running : bool
}.

Definition with_stack (s : list Z) (vm : VM) : VM :=
  mkVM s (memory vm) (call_stack vm) (program vm) (ip vm) (running vm).
Definition with_memory (m : list Z) (vm : VM) : VM :=
  mkVM (stack vm) m (call_stack vm) (program vm) (ip vm) (running vm).
Definition with_call_stack (c : list Z) (vm : VM) : VM :=
  mkVM (stack vm) (memory vm) c (program vm) (ip vm) (running vm).
Definition with_ip (i : Z) (vm : VM) : VM :=
  mkVM (stack vm) (memory vm) (call_stack vm) (program vm) i (running vm).
Definition with_running (b : bool) (vm : VM) : VM :=
  mkVM (stack vm) (memory vm) (call_stack vm) (program vm) (ip vm) b.

(** [__init__]: [[0] * memory_size] is empty when the size is not positive. *)
Definition new (memory_size : Z) : VM :=
  mkVM [] (replicate (Z.to_nat memory_size) 0) [] [] 0 false.

Definition load_program (p : Program) (vm : VM) : VM :=
  mkVM [] (memory vm) [] p 0 (running vm).

(** The subscript [l[i]] of a Python list: a negative index counts from
    the end, and an index outside [-len(l), len(l)) raises [IndexError],
    here [None]. *)
Definition getitem {A} (l : list A) (i : Z) : option A :=
  if 0 <=? i then l !! Z.to_nat i
  else if - Z.of_nat (length l) <=? i then l !! Z.to_nat (Z.of_nat (length l) + i)
  else None.

Definition out_of_bounds (address : Z) (vm : VM) : bool :=
  (address <? 0) || (Z.of_nat (length (memory vm)) <=? address).

(** How a call of [execute_instruction] ends: it returns [True], returns
    [False], or raises. *)
Inductive outcome : Type :=
  | Continue
  | Stop
  | Raise (f : fault).

(** A binary arithmetic opcode: [b] is popped first, then [a]. *)
Definition binary (op : Z → Z → Z) (vm : VM) : outcome * VM * list string :=
  match stack vm with
  | b :: a :: s => (Continue, with_stack (op a b :: s) vm, [])
  | _ => (Raise StackUnderflow, vm, [])
  end.

(** The [if] / [elif] chain of [execute_instruction], entered with the
    instruction pointer already advanced: the outcome, the machine as the
    call leaves it, and the lines it printed. *)
Definition dispatch (instruction : Instruction) (operand : option Z) (vm : VM)
  : outcome * VM * list string :=
  match instruction with
  | PUSH =>
      match operand with
      | None => (Raise (MissingOperand PUSH), vm, [])
      | Some n => (Continue, with_stack (n :: stack vm) vm, [])
      end
  | POP =>
      match stack vm with
      | [] => (Raise StackUnderflow, vm, [])
      | _ :: s => (Continue, with_stack s vm, [])
      end
  | ADD => binary Z.add vm
  | SUB => binary Z.sub vm
  | MUL => binary Z.mul vm
  | DIV =>
      match stack vm with
      | b :: a :: s =>
          if b =? 0 then (Raise DivisionByZero, with_stack (a :: s) vm, [])
          else (Continue, with_stack (a / b :: s) vm, [])
      | _ => (Raise StackUnderflow, vm, [])
      end
  | STORE =>
      match stack vm with
      | value :: address :: s =>
          let vm := with_stack s vm in
          if out_of_bounds address vm
          then (Raise (MemoryOutOfBounds address), vm, [])
          else (Continue,
                with_memory (<[Z.to_nat address := value]> (memory vm)) vm, [])
      | _ => (Raise StackUnderflow, vm, [])
      end
  | LOAD =>
      match stack vm with
      | address :: s =>
          let vm := with_stack s vm in
          if out_of_bounds address vm
          then (Raise (MemoryOutOfBounds address), vm, [])
          else (Continue,
                with_stack (nth (Z.to_nat address) (memory vm) 0 :: s) vm, [])
      | [] => (Raise StackUnderflow, vm, [])
      end
  | JMP =>
      match operand with
      | None => (Raise (MissingOperand JMP), vm, [])
      | Some target => (Continue, with_ip target vm, [])
      end
  | JZ =>
      match stack vm with
      | [] => (Raise StackUnderflow, vm, [])
      | value :: s =>
          let vm := with_stack s vm in
          match operand with
          | Some target =>
              if value =? 0 then (Continue, with_ip target vm, [])
              else (Continue, vm, [])
          | None => (Continue, vm, [])
          end
      end
  | JNZ =>
      match stack vm with
      | [] => (Raise StackUnderflow, vm, [])
      | value :: s =>
          let vm := with_stack s vm in
          match operand with
          | Some target =>
              if negb (value =? 0) then (Continue, with_ip target vm, [])
              else (Continue, vm, [])
          | None => (Continue, vm, [])
          end
      end
  | CALL =>
      match operand with
      | None => (Raise (MissingOperand CALL), vm, [])
      | Some target =>
          (Continue, with_ip target (with_call_stack (ip vm :: call_stack vm) vm), [])
      end
  | RET =>
      match call_stack vm with
      | [] => (Raise CallStackUnderflow, vm, [])
      | address :: c => (Continue, with_ip address (with_call_stack c vm), [])
      end
  | PRINT =>
      match stack vm with
      | [] => (Raise StackUnderflow, vm, [])
      | value :: s => (Continue, with_stack s vm, [Py.str value])
      end
  | HALT => (Stop, vm, [])
  end.

(** [execute_instruction]: the end-of-program test, the fetch (which
    raises [IndexError] below [-len(program)]), the increment, and the
    dispatch. *)
Definition execute_instruction (vm : VM) : outcome * VM * list string :=
  if Z.of_nat (length (program vm)) <=? ip vm then (Stop, vm, [])
  else
    match getitem (program vm) (ip vm) with
    | None => (Raise IndexOutOfRange, vm, [])
    | Some (instruction, operand) =>
        dispatch instruction operand (with_ip (ip vm + 1) vm)
    end.

(** The [while] loop of [run], with the exception still in flight:
    [Err f] when a call of [execute_instruction] raised.  [None] when the
    fuel is used up before the loop ends. *)
Fixpoint loop (fuel : nat) (vm : VM) : option (result fault () * VM * list string) :=
  match fuel with
  | O => None
  | S fuel =>
      if running vm then
        match execute_instruction vm with
        | (Continue, vm', out) =>
            '(r, vm'', out') ← loop fuel vm';
            Some (r, vm'', out ++ out')
        | (Stop, vm', out) => Some (Ok (), vm', out)
        | (Raise f, vm', out) => Some (Err f, vm', out)
        end
      else Some (Ok (), vm, [])
  end.

(** [run]: the handler [except Exception] catches every fault, both
    [ValueError] and [IndexError] being subclasses of [Exception], prints
    the message and lets the method go on to [self.running = False]. *)
Definition run (fuel : nat) (vm : VM) : option (result fault () * VM * list string) :=
  '(r, vm', out) ← loop fuel (with_running true vm);
  match r with
  | Ok _ => Some (Ok (), with_running false vm', out)
  | Err e =>
      Some (Ok (), with_running false vm', out ++ ["Runtime error: " +:+ message e])
  end.

End VirtualMachine.

(** The program the machine accepts has [int] or [None] operands; an
    instruction list with a label name left in it is not one. *)
Definition resolved (entry : Instruction * operand) : option (Instruction * option Z) :=
  match entry with
  | (i, NoOperand) => Some (i, None)
  | (i, Int n) => Some (i, Some n)
  | (_, Label _) => None
  end.

Definition program_of (instrs : list (Instruction * operand))
  : option VirtualMachine.Program := mapM resolved instrs.

Module LanguageModel.

(** [compile_and_run] on a machine [vm]: a compile error propagates;
    otherwise the program is loaded and run. *)
Definition compile_and_run (fuel : nat) (vm : VirtualMachine.VM) (source : string)
  : result AssemblyCompiler.compile_error
      (option (result VirtualMachine.fault () * VirtualMachine.VM * list string)) :=
  instrs ← AssemblyCompiler.compile source;
  Ok (p ← program_of instrs;
      VirtualMachine.run fuel (VirtualMachine.load_program p vm)).

End LanguageModel.

Definition nl : string := String (ascii_of_N 10) EmptyString.

Definition unlines (ls : list string) : string :=
  foldr (λ l acc, l +:+ nl +:+ acc) EmptyString ls.

(** ** Predicates the statements use *)

Section Vocabulary.
Import VirtualMachine.

(** The machine [vm] is about to execute [(i, o)]: the end-of-program test
    lets it through and the subscript yields that tuple. *)
Definition fetches (vm : VM) (i : Instruction) (o : option Z) : Prop :=
  ip vm < Z.of_nat (length (program vm)) ∧
  getitem (program vm) (ip vm) = Some (i, o).

(** Operand-stack items an opcode pops. *)
Definition pops (i : Instruction) : nat :=
  match i with
  | POP | LOAD | JZ | JNZ | PRINT => 1
  | ADD | SUB | MUL | DIV | STORE => 2
  | PUSH | JMP | CALL | RET | HALT => 0
  end.

(** What the second pass makes of one entry under the label table [tbl]. *)
Definition resolves (tbl : gmap string nat)
  (raw res : Instruction * operand) : Prop :=
  match raw with
  | (i, Label name) => ∃ index, tbl !! name = Some index ∧ res = (i, Int (Z.of_nat index))
  | _ => res = raw
  end.

(** The condition under which a conditional jump is taken. *)
Definition jump_condition (i : Instruction) (value : Z) : bool :=
  match i with
  | JZ => value =? 0
  | JNZ => negb (value =? 0)
  | _ => false
  end.

(** [steps vm out vm']: calls of [execute_instruction] that all returned
    [True] lead from [vm] to [vm'] and printed [out]. *)
Inductive steps : VM → list string → VM → Prop :=
  | steps_refl vm : steps vm [] vm
  | steps_next vm vm1 vm2 out out' :
      execute_instruction vm = (Continue, vm1, out) →
      steps vm1 out' vm2 →
      steps vm (out ++ out') vm2.

End Vocabulary.

(** ** Source texts used in the statements *)

Definition add_source : string := unlines ["ADD"; "HALT"].
Definition div_pos_source : string :=
  unlines ["PUSH 7"; "PUSH 2"; "DIV"; "PRINT"; "HALT"].
Definition div_neg_source : string :=
  unlines ["PUSH -7"; "PUSH 2"; "DIV"; "PRINT"; "HALT"].
Definition div_zero_source : string := unlines ["PUSH 1"; "PUSH 0"; "DIV"; "HALT"].
Definition store_oob_source : string :=
  unlines ["PUSH 1024"; "PUSH 0"; "STORE"; "HALT"].
Definition store_source : string := unlines ["PUSH 5"; "PUSH 42"; "STORE"; "HALT"].
Definition load_source : string := unlines ["PUSH 5"; "LOAD"; "PRINT"; "HALT"].
Definition jz_bare_source : string :=
  unlines ["PUSH 0"; "JZ"; "PUSH 5"; "PRINT"; "HALT"].

(** The call / return program, the label on a line of its own. *)
Definition call_source : string :=
  unlines ["CALL sub"; "HALT"; "sub:"; "PUSH 9"; "PRINT"; "RET"].
(** The same with the label and [PUSH 9] sharing a line. *)
Definition call_source_shared_line : string :=
  unlines ["CALL sub"; "HALT"; "sub: PUSH 9"; "PRINT"; "RET"].

Definition jump_back_source : string :=
  unlines ["JMP -3"; "HALT"; "PUSH 7"; "PRINT"; "HALT"].
Definition jump_below_source : string := unlines ["JMP -5"; "HALT"].

Definition references_source : string :=
  unlines ["JMP top"; "PUSH 1"; "top:"; "PUSH 2"; "JMP top"].
Definition digit_label_source : string := unlines ["loop1:"; "JMP loop1"].
Definition number_label_source : string := unlines ["PUSH 1"; "7:"; "JMP 7"].

(** Machines caught just before one instruction. *)
Definition before_div : VirtualMachine.VM :=
  VirtualMachine.mkVM [2; -7] [] [] [(DIV, None)] 0 true.
Definition before_add : VirtualMachine.VM :=
  VirtualMachine.mkVM [] [0; 0] [] [(ADD, None)] 0 true.
Definition before_jz : VirtualMachine.VM :=
  VirtualMachine.mkVM [0] [] [] [(JZ, None)] 0 true.
Definition before_call : VirtualMachine.VM :=
  VirtualMachine.mkVM [] [] [] [(CALL, Some 7)] 0 true.
Definition at_minus_one : VirtualMachine.VM :=
  VirtualMachine.mkVM [] [] [] [(PUSH, Some 1); (PUSH, Some 2)] (-1) true.

(** ** Further vocabulary *)

(** A line from which [parse_line] returns an instruction when it does not
    raise: not blank once cleaned, and no label declaration. *)
Definition emits (line : string) : bool :=
  negb (Py.is_empty (AssemblyCompiler.clean line)) &&
  match Py.label_match (AssemblyCompiler.clean line) with
  | Some _ => false
  | None => true
  end.

(** Operand-stack items an opcode pushes when it succeeds. *)
Definition pushes (i : Instruction) : nat :=
  match i with
  | PUSH | ADD | SUB | MUL | DIV | LOAD => 1
  | _ => 0
  end.

(** The opcodes that assign the instruction pointer. *)
Definition is_jump (i : Instruction) : bool :=
  match i with
  | JMP | JZ | JNZ | CALL | RET => true
  | _ => false
  end.

Definition straight_line (p : VirtualMachine.Program) : bool :=
  forallb (λ entry, negb (is_jump entry.1)) p.

(** The opcodes that read their operand as an address. *)
Definition takes_target (i : Instruction) : bool :=
  match i with
  | JMP | JZ | JNZ | CALL => true
  | _ => false
  end.

(** No [JMP], [JZ], [JNZ] or [CALL] of the program has a negative operand;
    the operand of any other opcode is free. *)
Definition nonneg_targets (p : VirtualMachine.Program) : bool :=
  forallb (λ entry, match entry with
                    | (i, Some target) => negb (takes_target i) || (0 <=? target)
                    | (_, None) => true
                    end) p.

(** A machine that cannot reach a negative instruction pointer. *)
Definition nonneg_state (vm : VirtualMachine.VM) : Prop :=
  0 ≤ VirtualMachine.ip vm ∧
  Forall (λ address, 0 ≤ address) (VirtualMachine.call_stack vm) ∧
  nonneg_targets (VirtualMachine.program vm) = true.







(** A program whose first instruction faults on the empty stack. *)
Definition resume_source : string := unlines ["ADD"; "PUSH 7"; "PRINT"; "HALT"].

Definition before_store : VirtualMachine.VM :=
  VirtualMachine.mkVM [42; 1] [0; 0] [] [(STORE, None); (LOAD, None)] 0 true.
Definition before_load : VirtualMachine.VM :=
  VirtualMachine.mkVM [1; 8] [0; 42] [] [(STORE, None); (LOAD, None)] 1 true.
Definition before_ret : VirtualMachine.VM :=
  VirtualMachine.mkVM [3] [] [1; 9] [(CALL, Some 7); (RET, None)] 1 true.
Definition spinning : VirtualMachine.VM :=
  VirtualMachine.mkVM [] [] [] [(PUSH, Some 1); (JMP, Some 1)] 1 false.
Definition past_end : VirtualMachine.VM :=
  VirtualMachine.mkVM [4] [] [] [(PUSH, Some 4)] 1 false.

(** ** Strings: facts about the primitives *)

Section Strings.
Import Py.

Ltac by_cases_on c :=
  destruct c as [[] [] [] [] [] [] [] []]; vm_compute; intuition congruence.

Lemma isword_not_space c : isword c = true → isspace c = false.
Proof. by_cases_on c. Qed.

Lemma isword_not_semicolon c : isword c = true → (ord c =? 59)%N = false.
Proof. by_cases_on c. Qed.

Lemma isword_not_colon c : isword c = true → (ord c =? 58)%N = false.
Proof. by_cases_on c. Qed.

Lemma isword_not_sign c :
  isword c = true → (ord c =? 45)%N = false ∧ (ord c =? 43)%N = false.
Proof. by_cases_on c. Qed.

Lemma isalpha_char_not_digit c :
  isalpha_char c = true → digit_value c = None ∧ (ord c =? 95)%N = false.
Proof. by_cases_on c. Qed.

Lemma digit_or_underscore_not_alpha c :
  isdigit c || (ord c =? 95)%N = true → isalpha_char c = false.
Proof. by_cases_on c. Qed.

Lemma line_feed_breaks c :
  (ord c =? 10)%N = true → islinebreak c = true ∧ (ord c =? 13)%N = false.
Proof. by_cases_on c. Qed.

Lemma is_empty_snoc cur c : is_empty (snoc cur c) = false.
Proof. by destruct cur. Qed.

Lemma is_empty_true s : is_empty s = true → s = EmptyString.
Proof. by destruct s. Qed.

Lemma lstrip_head s c r : lstrip s = String c r → isspace c = false.
Proof.
  induction s as [|a s IH]; simpl; [done|].
  destruct (isspace a) eqn:Ha; [done|]. by intros [= <- _].
Qed.

Lemma strip_head s c r : strip s = String c r → isspace c = false.
Proof.
  unfold strip. destruct (lstrip s) as [|a t] eqn:E; simpl; [done|].
  pose proof (lstrip_head _ _ _ E) as Ha. rewrite Ha. simpl.
  by intros [= <- _].
Qed.

Lemma split_from_nonempty cur s : is_empty cur = false → split_from cur s ≠ [].
Proof.
  revert cur. induction s as [|a s IH]; intros cur H; simpl.
  - by rewrite H.
  - destruct (isspace a); [by rewrite H|]. apply IH, is_empty_snoc.
Qed.

(** A trimmed line that is not empty has a first token: the subscript
    [parts[0]] of [parse_line] cannot fail. *)
Lemma split_strip_nonempty s : is_empty (strip s) = false → split (strip s) ≠ [].
Proof.
  destruct (strip s) as [|c r] eqn:E; [done|]. intros _.
  unfold split. simpl. rewrite (strip_head _ _ _ E).
  apply split_from_nonempty, is_empty_snoc.
Qed.

Lemma all_chars_app p s t :
  all_chars p (s +:+ t) = all_chars p s && all_chars p t.
Proof. induction s as [|a s IH]; simpl; [done|]. by rewrite IH, andb_assoc. Qed.

Lemma remove_comment_id s :
  all_chars (λ c, negb (ord c =? 59)%N) s = true → remove_comment s = s.
Proof.
  induction s as [|a s IH]; simpl; [done|].
  intros [Ha Hs]%andb_true_iff. apply negb_true_iff in Ha. rewrite Ha.
  by rewrite IH.
Qed.

Lemma rstrip_word_colon w :
  all_chars isword w = true → rstrip (w +:+ ":") = w +:+ ":".
Proof.
  induction w as [|a w IH]; simpl; [done|].
  intros [Ha Hw]%andb_true_iff.
  by rewrite (isword_not_space _ Ha), IH.
Qed.

Lemma word_prefix_word_colon w :
  all_chars isword w = true → word_prefix (w +:+ ":") = (w, ":").
Proof.
  induction w as [|a w IH]; simpl; [done|].
  intros [Ha Hw]%andb_true_iff. by rewrite Ha, IH.
Qed.

Lemma label_match_word_colon w :
  w ≠ EmptyString → all_chars isword w = true → label_match (w +:+ ":") = Some w.
Proof.
  intros Hne Hw. unfold label_match. rewrite word_prefix_word_colon by done.
  by destruct w.
Qed.

Lemma all_chars_impl (p q : ascii → bool) s :
  (∀ c, p c = true → q c = true) →
  all_chars p s = true → all_chars q s = true.
Proof.
  intros Hpq. induction s as [|a s IH]; simpl; [done|].
  intros [Ha Hs]%andb_true_iff. by rewrite (Hpq _ Ha), IH.
Qed.

Lemma all_chars_snoc p cur c :
  all_chars p (snoc cur c) = all_chars p cur && p c.
Proof. unfold snoc. rewrite all_chars_app. simpl. by rewrite andb_true_r. Qed.

Lemma splitlines_from_no_break cur s line :
  all_chars (λ c, negb (islinebreak c)) cur = true →
  line ∈ splitlines_from cur s →
  all_chars (λ c, negb (islinebreak c)) line = true.
Proof.
  revert cur. induction s as [|a s IH]; intros cur Hcur; simpl.
  - destruct (is_empty cur); [by intros ?%elem_of_nil|].
    by intros ->%list_elem_of_singleton.
  - destruct (islinebreak a) eqn:Ha.
    + destruct s as [|b s]; [by intros ->%list_elem_of_singleton|].
      destruct ((ord a =? 13)%N && (ord b =? 10)%N) eqn:Hcrlf.
      * intros [->|Hin]%elem_of_cons; [done|].
        apply (IH EmptyString); [done|].
        apply andb_true_iff in Hcrlf as [_ Hb].
        destruct (line_feed_breaks _ Hb) as [Hbreak Hcr].
        simpl. rewrite Hbreak.
        destruct s as [|c s]; [by apply elem_of_nil in Hin|].
        rewrite Hcr. simpl. by right.
      * intros [->|Hin]%elem_of_cons; [done|]. by apply (IH EmptyString).
    + apply IH. by rewrite all_chars_snoc, Hcur, Ha.
Qed.

(** The lines [compile] hands to [parse_line] hold no line break, so the
    [.] and the [$] of the comment pattern reach the end of the line. *)
Lemma splitlines_no_break source line :
  line ∈ splitlines source →
  all_chars (λ c, negb (islinebreak c)) line = true.
Proof. by apply splitlines_from_no_break. Qed.

(** A word followed by a colon has no comment and nothing to trim. *)
Lemma strip_remove_comment_word_colon w :
  w ≠ EmptyString → all_chars isword w = true →
  strip (remove_comment (w +:+ ":")) = w +:+ ":".
Proof.
  intros Hne Hw. rewrite remove_comment_id.
  - unfold strip. destruct w as [|a w]; [done|]. simpl in Hw |- *.
    apply andb_true_iff in Hw as [Ha Hw]. rewrite (isword_not_space _ Ha).
    change (String a (w +:+ ":")) with (String a w +:+ ":").
    apply rstrip_word_colon. simpl. by rewrite Ha, Hw.
  - rewrite all_chars_app. apply andb_true_iff. split; [|done].
    eapply all_chars_impl; [|exact Hw].
    intros c Hc. by rewrite (isword_not_semicolon _ Hc).
Qed.

Lemma int_digits_letter acc prev s :
  any_char isalpha_char s = true → int_digits acc prev s = None.
Proof.
  revert acc prev. induction s as [|a s IH]; intros acc prev; simpl; [done|].
  destruct (isalpha_char a) eqn:Ha; simpl.
  - intros _. destruct (isalpha_char_not_digit _ Ha) as [-> ->]. done.
  - intros Hs. destruct (digit_value a); [by apply IH|].
    destruct ((ord a =? 95)%N && prev); [by apply IH|done].
Qed.

(** [int] rejects a word that contains a letter. *)
Lemma int_word_with_letter w :
  all_chars isword w = true → any_char isalpha_char w = true → int w = None.
Proof.
  destruct w as [|a w]; [done|]. intros [Ha Hw]%andb_true_iff Hl.
  unfold int. destruct (isword_not_sign _ Ha) as [-> ->].
  by apply int_digits_letter.
Qed.

Lemma isalpha_false_of_digit_or_underscore w :
  any_char (λ c, isdigit c || (ord c =? 95)%N) w = true → isalpha w = false.
Proof.
  intros H. unfold isalpha. apply andb_false_iff. right.
  induction w as [|a w IH]; simpl in *; [done|].
  destruct (isdigit a || (ord a =? 95)%N) eqn:Ha; simpl in *.
  - by rewrite (digit_or_underscore_not_alpha _ Ha).
  - rewrite IH by done. apply andb_false_r.
Qed.

End Strings.

(** ** The assembler: lines, passes *)

Section Assembler.
Import AssemblyCompiler.

Lemma parse_line_blank st line :
  Py.is_empty (clean line) = true → parse_line st line = Ok (st, None).
Proof. intros H. unfold parse_line. by rewrite H. Qed.

Lemma parse_line_label st line name :
  Py.label_match (clean line) = Some name →
  parse_line st line
    = Ok (mkState (<[name := length (instructions st)]> (labels st))
                  (instructions st), None).
Proof.
  intros H. unfold parse_line.
  destruct (Py.is_empty (clean line)) eqn:E.
  - apply is_empty_true in E. by rewrite E in H.
  - by rewrite H.
Qed.

Lemma parse_line_instruction st line name rest :
  Py.label_match (clean line) = None →
  Py.split (clean line) = name :: rest →
  parse_line st line
    = match instruction_map !! Py.upper name with
      | None => Err (UnknownInstruction (Py.upper name))
      | Some instruction =>
          operand ← parse_operand (name :: rest);
          Ok (st, Some (instruction, operand))
      end.
Proof.
  intros Hl Hs. unfold parse_line.
  destruct (Py.is_empty (clean line)) eqn:E.
  - apply is_empty_true in E. by rewrite E in Hs.
  - by rewrite Hl, Hs.
Qed.

(** The three kinds of lines. *)
Lemma line_cases line :
  Py.is_empty (clean line) = true ∨
  (∃ name, Py.label_match (clean line) = Some name) ∨
  (∃ name rest, Py.label_match (clean line) = None ∧
                Py.split (clean line) = name :: rest).
Proof.
  destruct (Py.is_empty (clean line)) eqn:E; [by left|right].
  destruct (Py.label_match (clean line)) as [name|] eqn:Hl; [left; eauto|right].
  destruct (Py.split (clean line)) as [|name rest] eqn:Hs; [|eauto].
  by destruct (split_strip_nonempty _ E).
Qed.


Lemma parse_operand_not_alpha name t rest :
  Py.isalpha t = false →
  parse_operand (name :: t :: rest)
    = match Py.int t with
      | Some n => Ok (Int n)
      | None => Err (InvalidOperand t)
      end.
Proof. intros H. simpl. by rewrite H. Qed.



Lemma first_pass_app st l1 l2 :
  first_pass st (l1 ++ l2) = first_pass st l1 ≫= λ st1, first_pass st1 l2.
Proof.
  revert st. induction l1 as [|line l1 IH]; intros st; simpl; [done|].
  destruct (parse_line st line) as [[st' [r|]]|e]; simpl; by rewrite ?IH.
Qed.

(** One iteration of the first pass that does not raise. *)
Lemma first_pass_cons_ok st line lines st' :
  first_pass st (line :: lines) = Ok st' →
  ∃ st1, first_pass st1 lines = Ok st' ∧
    ((∃ name, Py.label_match (clean line) = Some name ∧
        st1 = mkState (<[name := length (instructions st)]> (labels st))
                      (instructions st)) ∨
     (Py.label_match (clean line) = None ∧ labels st1 = labels st ∧
        ∃ new, instructions st1 = instructions st ++ new)).
Proof.
  simpl.
  destruct (line_cases line) as [Hb|[[name Hl]|(name & rest & Hl & Hs)]].
  - rewrite (parse_line_blank _ _ Hb). simpl. intros H.
    exists st. split; [done|]. right.
    apply is_empty_true in Hb. rewrite Hb.
    split; [done|]. split; [done|]. exists []. by rewrite app_nil_r.
  - rewrite (parse_line_label _ _ _ Hl). simpl. intros H.
    eexists. split; [done|]. left. eauto.
  - rewrite (parse_line_instruction _ _ _ _ Hl Hs).
    destruct (instruction_map !! Py.upper name) as [instr|]; [|done].
    destruct (parse_operand (name :: rest)) as [o|e]; [|done].
    simpl. intros H. eexists. split; [done|]. right. simpl. eauto.
Qed.

(** What a first pass that does not raise does to the state: instructions
    are only appended; a label once bound stays bound; the binding of a
    name changes only at a line that declares it; every name declared is
    bound. *)
Lemma first_pass_grows st lines st' :
  first_pass st lines = Ok st' →
  (∃ later, instructions st' = instructions st ++ later) ∧
  (∀ n, is_Some (labels st !! n) → is_Some (labels st' !! n)) ∧
  (∀ n, (∀ l, l ∈ lines → Py.label_match (clean l) ≠ Some n) →
        labels st' !! n = labels st !! n) ∧
  (∀ l n, l ∈ lines → Py.label_match (clean l) = Some n →
          is_Some (labels st' !! n)).
Proof.
  revert st. induction lines as [|line lines IH]; intros st H.
  - injection H as <-. split; [exists []; by rewrite app_nil_r|].
    split; [done|]. split; [done|]. by intros l n ?%elem_of_nil.
  - destruct (first_pass_cons_ok _ _ _ _ H) as (st1 & H1 & Hline).
    destruct (IH _ H1) as ((later & Hi) & Hmono & Hkeep & Hdecl).
    assert (Hst1 : (∃ new, instructions st1 = instructions st ++ new) ∧
                   (∀ n, is_Some (labels st !! n) → is_Some (labels st1 !! n)) ∧
                   (∀ n, Py.label_match (clean line) ≠ Some n →
                         labels st1 !! n = labels st !! n)).
    { destruct Hline as [(name & Hl & ->)|(Hl & Hlab & Hnew)]; simpl.
      - split; [exists []; by rewrite app_nil_r|]. split.
        + intros n Hn. destruct (decide (name = n)) as [->|Hne].
          * rewrite lookup_insert_eq. eauto.
          * by rewrite lookup_insert_ne.
        + intros n Hn. rewrite lookup_insert_ne; [done|]. congruence.
      - rewrite Hlab. done. }
    destruct Hst1 as ((new & Hnew) & Hmono1 & Hkeep1).
    split; [exists (new ++ later); by rewrite Hi, Hnew, (assoc_L (++))|].
    split; [eauto|]. split.
    + intros n Hn. rewrite Hkeep, Hkeep1; [done|..].
      * apply Hn. by left.
      * intros l Hl. apply Hn. by right.
    + intros l n [->|Hl]%elem_of_cons Hm; [|eauto].
      apply Hmono. destruct Hline as [(name & Hl & ->)|(Hl & _)]; simpl.
      * assert (name = n) as -> by congruence. rewrite lookup_insert_eq. eauto.
      * congruence.
Qed.


(** The first error aborts the pass. *)
Lemma first_pass_first_error st pre line post st1 e :
  first_pass st pre = Ok st1 → parse_line st1 line = Err e →
  first_pass st (pre ++ line :: post) = Err e.
Proof.
  intros Hpre Hl. rewrite first_pass_app, Hpre. simpl. by rewrite Hl.
Qed.

Lemma second_pass_ok tbl instrs prog :
  second_pass tbl instrs = Ok prog → Forall2 (resolves tbl) instrs prog.
Proof.
  revert prog. induction instrs as [|[i o] instrs IH]; intros prog; simpl.
  - intros [= <-]. constructor.
  - destruct o as [|n|name].
    + destruct (second_pass tbl instrs) as [rest|]; [|done].
      intros [= <-]. constructor; [done|eauto].
    + destruct (second_pass tbl instrs) as [rest|]; [|done].
      intros [= <-]. constructor; [done|eauto].
    + destruct (tbl !! name) as [index|] eqn:Hn; [|done].
      destruct (second_pass tbl instrs) as [rest|]; [|done].
      intros [= <-]. constructor; [simpl; eauto|eauto].
Qed.




End Assembler.

(** ** The machine: one step *)

Section Step.
Import VirtualMachine.

Lemma execute_fetch vm i o :
  fetches vm i o →
  execute_instruction vm = dispatch i o (with_ip (ip vm + 1) vm).
Proof.
  intros [Hlt Hget]. unfold execute_instruction.
  destruct (Z.leb_spec (Z.of_nat (length (program vm))) (ip vm)); [lia|].
  by rewrite Hget.
Qed.

Lemma execute_past_end vm :
  Z.of_nat (length (program vm)) ≤ ip vm →
  execute_instruction vm = (Stop, vm, []).
Proof.
  intros H. unfold execute_instruction.
  by destruct (Z.leb_spec (Z.of_nat (length (program vm))) (ip vm)); [|lia].
Qed.

Lemma getitem_nonneg {A} (l : list A) (i : Z) :
  0 ≤ i → getitem l i = l !! Z.to_nat i.
Proof.
  intros H. unfold getitem. by destruct (Z.leb_spec 0 i); [|lia].
Qed.

Lemma getitem_negative {A} (l : list A) (k : Z) :
  0 < k ≤ Z.of_nat (length l) →
  getitem l (- k) = l !! (length l - Z.to_nat k)%nat.
Proof.
  intros H. unfold getitem.
  destruct (Z.leb_spec 0 (- k)); [lia|].
  destruct (Z.leb_spec (- Z.of_nat (length l)) (- k)); [|lia].
  f_equal. lia.
Qed.

Lemma getitem_below {A} (l : list A) (k : Z) :
  Z.of_nat (length l) < k → getitem l (- k) = None.
Proof.
  intros H. unfold getitem.
  destruct (Z.leb_spec 0 (- k)); [lia|].
  by destruct (Z.leb_spec (- Z.of_nat (length l)) (- k)); [lia|].
Qed.

(** [execute_instruction] never writes [running] nor [program]. *)
Lemma execute_keeps vm r vm' out :
  execute_instruction vm = (r, vm', out) →
  running vm' = running vm ∧ program vm' = program vm.
Proof.
  unfold execute_instruction, dispatch, binary, out_of_bounds.
  intros H.
  repeat (case_match; simplify_eq/=; try done).
Qed.

End Step.

(** ** The machine: the run loop *)

Section Run.
Import VirtualMachine.

Lemma loop_mono n vm x :
  loop n vm = Some x → ∀ m, (n ≤ m)%nat → loop m vm = Some x.
Proof.
  revert vm x. induction n as [|n IH]; intros vm x H m Hm; [done|].
  destruct m as [|m]; [lia|]. simpl in *.
  destruct (running vm); [|done].
  destruct (execute_instruction vm) as [[[| |f] vm'] out]; try done.
  destruct (loop n vm') as [y|] eqn:Hy; [|done].
  by rewrite (IH _ _ Hy m) by lia.
Qed.

Lemma run_mono n vm x :
  run n vm = Some x → ∀ m, (n ≤ m)%nat → run m vm = Some x.
Proof.
  unfold run. intros H m Hm.
  destruct (loop n _) as [y|] eqn:Hy; [|done].
  by rewrite (loop_mono _ _ _ Hy m Hm).
Qed.

Lemma steps_running vm out vm' :
  steps vm out vm' → running vm' = running vm.
Proof.
  induction 1 as [|vm vm1 vm2 out out' H _ IH]; [done|].
  rewrite IH. by apply execute_keeps in H as [-> _].
Qed.

(** A fault after any number of good steps ends the loop with the
    exception in flight. *)
Lemma loop_fault vm out vm1 f vm2 out2 :
  running vm = true →
  steps vm out vm1 →
  execute_instruction vm1 = (Raise f, vm2, out2) →
  ∃ fuel, loop fuel vm = Some (Err f, vm2, out ++ out2).
Proof.
  intros Hrun Hsteps. revert Hrun.
  induction Hsteps as [vm|vm vm1 vm2' out out' H Hs IH]; intros Hrun Hf.
  - exists 1%nat. simpl. by rewrite Hrun, Hf.
  - destruct IH as [fuel Hfuel]; [|done|].
    { apply execute_keeps in H as [-> _]. done. }
    exists (S fuel). simpl. rewrite Hrun, H, Hfuel. simpl.
    by rewrite <-(assoc_L (++)).
Qed.

Lemma steps_next_eq vm vm1 vm2 out out' outs :
  execute_instruction vm = (Continue, vm1, out) →
  steps vm1 out' vm2 →
  outs = out ++ out' →
  steps vm outs vm2.
Proof. intros H Hs ->. by eapply steps_next. Qed.

Lemma compile_and_run_mono n vm source x :
  LanguageModel.compile_and_run n vm source = Ok (Some x) →
  ∀ m, (n ≤ m)%nat → LanguageModel.compile_and_run m vm source = Ok (Some x).
Proof.
  unfold LanguageModel.compile_and_run. intros H m Hm.
  destruct (AssemblyCompiler.compile source) as [instrs|e]; simpl in *; [|done].
  destruct (program_of instrs) as [p|]; simpl in *; [|done].
  f_equal. injection H as H. by apply run_mono with n.
Qed.

End Run.

(** ** Properties of the machine *)

Section MachineProperties.
Import VirtualMachine LanguageModel.

(** C7: [load_program] installs the program, sets the instruction pointer
    to 0 and empties the operand stack and the call stack; the memory (and
    the [running] flag) are what they were.  So a cell written by one
    program is read by the next one loaded on the same machine: after
    [store_source] has put 42 in cell 5, [load_source] prints 42. *)
Theorem load_program_frame :
  (∀ (p : Program) (vm : VM),
     program (load_program p vm) = p ∧
     ip (load_program p vm) = 0 ∧
     stack (load_program p vm) = [] ∧
     call_stack (load_program p vm) = [] ∧
     memory (load_program p vm) = memory vm ∧
     running (load_program p vm) = running vm) ∧
  (∃ vm1 vm2,
     compile_and_run 10 (new 1024) store_source = Ok (Some (Ok (), vm1, [])) ∧
     memory vm1 !! 5%nat = Some 42 ∧
     compile_and_run 10 vm1 load_source = Ok (Some (Ok (), vm2, ["42"]))).
Proof.
  split; [done|].
  eexists _, _. split; [vm_compute; reflexivity|].
  split; [reflexivity|]. vm_compute. reflexivity.
Qed.

(** C3: [DIV] pops the divisor [b], then the dividend [a], and pushes the
    floor of [a / b]: the quotient [q] with [b * q <= a < b * (q + 1)] for
    a positive divisor (and the mirrored bounds for a negative one).  With
    fewer than two items it raises the stack underflow; with the divisor 0
    it raises the division by zero, the divisor already popped.  Run on
    7 and 2 it prints 3, on -7 and 2 it prints -4. *)
Theorem div_floor :
  (∀ vm o, fetches vm DIV o →
     (∀ a b s, stack vm = b :: a :: s → b ≠ 0 →
        execute_instruction vm
          = (Continue, with_stack (a / b :: s) (with_ip (ip vm + 1) vm), []) ∧
        (0 < b → b * (a / b) ≤ a < b * (a / b + 1)) ∧
        (b < 0 → b * (a / b + 1) < a ≤ b * (a / b))) ∧
     (∀ a s, stack vm = 0 :: a :: s →
        execute_instruction vm
          = (Raise DivisionByZero, with_stack (a :: s) (with_ip (ip vm + 1) vm), [])) ∧
     ((length (stack vm) < 2)%nat →
        execute_instruction vm = (Raise StackUnderflow, with_ip (ip vm + 1) vm, []))) ∧
  (∃ vm, compile_and_run 10 (new 1024) div_pos_source = Ok (Some (Ok (), vm, ["3"]))) ∧
  (∃ vm, compile_and_run 10 (new 1024) div_neg_source = Ok (Some (Ok (), vm, ["-4"]))).
Proof.
  split; [|split; eexists; vm_compute; reflexivity].
  intros vm o Hf. rewrite (execute_fetch _ _ _ Hf). simpl.
  split; [|split].
  - intros a b s -> Hb.
    destruct (Z.eqb_spec b 0) as [|_]; [done|].
    split; [done|]. split; intros Hs.
    + pose proof (Z.mul_div_le a b Hs). pose proof (Z.mul_succ_div_gt a b Hs). lia.
    + pose proof (Z.mul_div_ge a b Hs). pose proof (Z.mul_succ_div_lt a b Hs). lia.
  - by intros a s ->.
  - destruct (stack vm) as [|b [|a s]]; simpl; (done || lia).
Qed.

Lemma div_floor_witness :
  fetches before_div DIV None ∧
  execute_instruction before_div
    = (Continue, mkVM [-4] [] [] [(DIV, None)] 1 true, []).
Proof.
  assert (Hf : fetches before_div DIV None)
    by (split; reflexivity).
  split; [exact Hf|].
  destruct (proj1 div_floor _ _ Hf) as [H _].
  destruct (H (-7) 2 [] eq_refl ltac:(discriminate)) as [He _].
  exact He.
Defined.

(** C6: an opcode that pops operand-stack items tests the depth first: on
    a stack shorter than what it pops it raises the stack underflow and
    the call leaves the stacks and the memory as they were (only the
    instruction pointer has advanced, in the fetch).  [STORE] and [LOAD]
    raise the out-of-bounds error, which carries the address, when the
    address popped is negative or not below the memory size.  [ADD] on the
    empty stack faults; storing at 1024 in a memory of 1024 cells faults
    with that address in the message. *)
Theorem underflow_and_bounds :
  (∀ vm i o, fetches vm i o → (length (stack vm) < pops i)%nat →
     execute_instruction vm = (Raise StackUnderflow, with_ip (ip vm + 1) vm, [])) ∧
  (∀ vm o value address s, fetches vm STORE o →
     stack vm = value :: address :: s →
     ¬ (0 ≤ address < Z.of_nat (length (memory vm))) →
     execute_instruction vm
       = (Raise (MemoryOutOfBounds address), with_stack s (with_ip (ip vm + 1) vm), [])) ∧
  (∀ vm o address s, fetches vm LOAD o →
     stack vm = address :: s →
     ¬ (0 ≤ address < Z.of_nat (length (memory vm))) →
     execute_instruction vm
       = (Raise (MemoryOutOfBounds address), with_stack s (with_ip (ip vm + 1) vm), [])) ∧
  (∃ vm, compile_and_run 10 (new 1024) add_source
           = Ok (Some (Ok (), vm, ["Runtime error: " +:+ message StackUnderflow]))) ∧
  (∃ vm, compile_and_run 10 (new 1024) store_oob_source
           = Ok (Some (Ok (), vm, ["Runtime error: " +:+ message (MemoryOutOfBounds 1024)]))) ∧
  message (MemoryOutOfBounds 1024) = "Memory address out of bounds: 1024".
Proof.
  repeat split; try (eexists; vm_compute; reflexivity).
  - intros vm i o Hf Hlen. rewrite (execute_fetch _ _ _ Hf).
    destruct i; simpl in *; unfold binary; simpl; try lia;
      destruct (stack vm) as [|b [|a s]]; simpl in *; (done || lia).
  - intros vm o value address s Hf Hs Hoob. rewrite (execute_fetch _ _ _ Hf).
    simpl. rewrite Hs. unfold out_of_bounds. simpl.
    destruct (Z.ltb_spec address 0); [done|].
    destruct (Z.leb_spec (Z.of_nat (length (memory vm))) address); [done|lia].
  - intros vm o address s Hf Hs Hoob. rewrite (execute_fetch _ _ _ Hf).
    simpl. rewrite Hs. unfold out_of_bounds. simpl.
    destruct (Z.ltb_spec address 0); [done|].
    destruct (Z.leb_spec (Z.of_nat (length (memory vm))) address); [done|lia].
Qed.

Lemma underflow_and_bounds_witness :
  fetches before_add ADD None ∧
  (length (stack before_add) < pops ADD)%nat ∧
  execute_instruction before_add
    = (Raise StackUnderflow, mkVM [] [0; 0] [] [(ADD, None)] 1 true, []).
Proof.
  assert (Hf : fetches before_add ADD None)
    by (split; reflexivity).
  assert (Hl : (length (stack before_add) < pops ADD)%nat)
    by (simpl; lia).
  split; [exact Hf|]. split; [exact Hl|].
  exact (proj1 underflow_and_bounds _ _ _ Hf Hl).
Defined.

(** C8: [JZ] and [JNZ] pop one value whatever it is and raise the stack
    underflow on the empty stack.  With an operand the instruction pointer
    becomes the operand when the value is zero ([JZ]) or not zero ([JNZ]).
    Without an operand the call just returns [True], also when the value
    meets the condition: the value is popped, execution falls through to
    the next instruction and nothing is raised. *)
Theorem conditional_jumps :
  (∀ vm i o, i = JZ ∨ i = JNZ → fetches vm i o →
     (stack vm = [] →
        execute_instruction vm = (Raise StackUnderflow, with_ip (ip vm + 1) vm, [])) ∧
     (∀ value s, stack vm = value :: s →
        ∃ vm', execute_instruction vm = (Continue, vm', []) ∧ stack vm' = s) ∧
     (∀ value s, stack vm = value :: s → o = None →
        execute_instruction vm
          = (Continue, with_stack s (with_ip (ip vm + 1) vm), [])) ∧
     (∀ value s target, stack vm = value :: s → o = Some target →
        execute_instruction vm
          = (Continue,
             with_ip (if jump_condition i value then target else ip vm + 1)
                     (with_stack s vm), []))) ∧
  (∃ vm, compile_and_run 10 (new 1024) jz_bare_source = Ok (Some (Ok (), vm, ["5"]))).
Proof.
  split; [|eexists; vm_compute; reflexivity].
  intros vm i o Hi Hf. rewrite (execute_fetch _ _ _ Hf).
  repeat split.
  - intros Hs. by destruct Hi as [-> | ->]; simpl; rewrite Hs.
  - intros value s Hs.
    destruct Hi as [-> | ->]; simpl; rewrite Hs; simpl;
      destruct o; simpl; try destruct (value =? 0); simpl; eauto.
  - intros value s Hs ->. by destruct Hi as [-> | ->]; simpl; rewrite Hs.
  - intros value s target Hs ->.
    by destruct Hi as [-> | ->]; simpl; rewrite Hs; simpl;
      destruct (value =? 0).
Qed.

Lemma conditional_jumps_witness :
  (JZ = JZ ∨ JZ = JNZ) ∧
  fetches before_jz JZ None ∧
  execute_instruction before_jz
    = (Continue, mkVM [] [] [] [(JZ, None)] 1 true, []).
Proof.
  assert (Hf : fetches before_jz JZ None)
    by (split; reflexivity).
  split; [by left|]. split; [exact Hf|].
  destruct (proj1 conditional_jumps _ JZ _ (or_introl eq_refl) Hf) as (_ & _ & H & _).
  exact (H 0 [] eq_refl eq_refl).
Defined.

(** C2 (amended): a step fetches the instruction at the instruction
    pointer and advances the pointer by one before it dispatches; the
    operand of a jump taken is assigned to the pointer as it is; [CALL]
    pushes the pointer already advanced and [RET] pops the call stack into
    the pointer.  The call / return program written with the label on a
    line of its own assembles to five instructions, prints exactly 9 and
    stops at the [HALT] at index 1, reached by the return with the call
    stack empty again. *)
Theorem fetch_advance_dispatch :
  (∀ vm i o, fetches vm i o →
     execute_instruction vm = dispatch i o (with_ip (ip vm + 1) vm)) ∧
  (∀ vm target, fetches vm JMP (Some target) →
     execute_instruction vm = (Continue, with_ip target vm, [])) ∧
  (∀ vm target, fetches vm CALL (Some target) →
     execute_instruction vm
       = (Continue, with_ip target (with_call_stack (ip vm + 1 :: call_stack vm) vm), [])) ∧
  (∀ vm i target value s, i = JZ ∨ i = JNZ → fetches vm i (Some target) →
     stack vm = value :: s → jump_condition i value = true →
     execute_instruction vm = (Continue, with_ip target (with_stack s vm), [])) ∧
  (∀ vm o address c, fetches vm RET o → call_stack vm = address :: c →
     execute_instruction vm = (Continue, with_ip address (with_call_stack c vm), [])) ∧
  AssemblyCompiler.compile call_source
    = Ok [(CALL, Int 2); (HALT, NoOperand); (PUSH, Int 9); (PRINT, NoOperand);
          (RET, NoOperand)] ∧
  (∃ p before_halt halted,
     program_of [(CALL, Int 2); (HALT, NoOperand); (PUSH, Int 9);
                 (PRINT, NoOperand); (RET, NoOperand)] = Some p ∧
     steps (with_running true (load_program p (new 1024))) ["9"] before_halt ∧
     ip before_halt = 1 ∧ call_stack before_halt = [] ∧
     fetches before_halt HALT None ∧
     execute_instruction before_halt = (Stop, halted, []) ∧
     ∀ n, (5 ≤ n)%nat →
       compile_and_run n (new 1024) call_source
         = Ok (Some (Ok (), with_running false halted, ["9"]))).
Proof.
  split; [exact execute_fetch|].
  split; [by intros vm target Hf; rewrite (execute_fetch _ _ _ Hf)|].
  split; [by intros vm target Hf; rewrite (execute_fetch _ _ _ Hf)|].
  split.
  { intros vm i target value s Hi Hf Hs Hc. rewrite (execute_fetch _ _ _ Hf).
    by destruct Hi as [-> | ->]; simpl in *; rewrite Hs; simpl; rewrite Hc. }
  split.
  { intros vm o address c Hf Hc. rewrite (execute_fetch _ _ _ Hf). simpl.
    by rewrite Hc. }
  split; [vm_compute; reflexivity|].
  eexists _, _, _. split; [reflexivity|].
  split.
  { eapply steps_next_eq; [vm_compute; reflexivity| |].
    - eapply steps_next_eq; [vm_compute; reflexivity| |].
      + eapply steps_next_eq; [vm_compute; reflexivity| |].
        * eapply steps_next_eq; [vm_compute; reflexivity| |].
          -- apply steps_refl.
          -- reflexivity.
        * reflexivity.
      + reflexivity.
    - reflexivity. }
  split; [reflexivity|]. split; [reflexivity|].
  split; [split; reflexivity|].
  split; [vm_compute; reflexivity|].
  intros n Hn. eapply compile_and_run_mono; [|exact Hn].
  vm_compute. reflexivity.
Qed.

Lemma fetch_advance_dispatch_witness :
  fetches before_call CALL (Some 7) ∧
  execute_instruction before_call
    = (Continue, mkVM [] [] [1] [(CALL, Some 7)] 7 true, []).
Proof.
  assert (Hf : fetches before_call CALL (Some 7)) by (split; reflexivity).
  split; [exact Hf|].
  destruct fetch_advance_dispatch as (_ & _ & H & _).
  exact (H _ _ Hf).
Defined.

(** Counterexample to C2 as stated: with [sub: PUSH 9] on one line the
    line is a label declaration and [PUSH 9] is not assembled; the run
    prints no 9 and ends in the stack underflow of [PRINT], whatever the
    fuel. *)
Lemma shared_line_drops_push :
  AssemblyCompiler.compile call_source_shared_line
    = Ok [(CALL, Int 2); (HALT, NoOperand); (PRINT, NoOperand); (RET, NoOperand)] ∧
  (∃ vm, compile_and_run 3 (new 1024) call_source_shared_line
           = Ok (Some (Ok (), vm, ["Runtime error: Stack underflow"]))) ∧
  (∀ n r vm out,
     compile_and_run n (new 1024) call_source_shared_line = Ok (Some (r, vm, out)) →
     out ≠ ["9"]).
Proof.
  split; [vm_compute; reflexivity|].
  split; [eexists; vm_compute; reflexivity|].
  intros n r vm out H.
  pose proof (compile_and_run_mono _ _ _ _ H (n `max` 3) ltac:(lia)) as H1.
  assert (H2 : ∃ vm', compile_and_run 3 (new 1024) call_source_shared_line
             = Ok (Some (Ok (), vm', ["Runtime error: Stack underflow"])))
    by (eexists; vm_compute; reflexivity).
  destruct H2 as [vm' H2].
  pose proof (compile_and_run_mono _ _ _ _ H2 (n `max` 3) ltac:(lia)) as H3.
  rewrite H1 in H3. by simplify_eq.
Qed.

(** C9 (amended): the end-of-program test lets every negative instruction
    pointer through.  At [-k] with [1 <= k <= len(program)] the fetch
    yields the [k]-th instruction from the end, which is then dispatched
    with the pointer at [-k + 1]; at [-k] with [k > len(program)] the
    subscript raises [IndexError] and the machine is left untouched.  A
    jump to a negative target is taken like any other.
    [jump_back_source] jumps to -3, runs the last three instructions and
    prints 7. *)
Theorem negative_ip :
  (∀ vm k, 0 < k → ip vm = - k →
     (k ≤ Z.of_nat (length (program vm)) →
        ∃ i o, program vm !! (length (program vm) - Z.to_nat k)%nat = Some (i, o) ∧
               execute_instruction vm = dispatch i o (with_ip (- k + 1) vm)) ∧
     (Z.of_nat (length (program vm)) < k →
        execute_instruction vm = (Raise IndexOutOfRange, vm, []))) ∧
  (∀ vm i target, target < 0 → fetches vm i (Some target) →
     (i = JMP →
        execute_instruction vm = (Continue, with_ip target vm, [])) ∧
     (i = CALL →
        execute_instruction vm
          = (Continue,
             with_ip target (with_call_stack (ip vm + 1 :: call_stack vm) vm), [])) ∧
     (∀ value s, i = JZ ∨ i = JNZ → stack vm = value :: s →
        jump_condition i value = true →
        execute_instruction vm = (Continue, with_ip target (with_stack s vm), []))) ∧
  (∀ vm o address c, address < 0 → fetches vm RET o →
     call_stack vm = address :: c →
     execute_instruction vm = (Continue, with_ip address (with_call_stack c vm), [])) ∧
  (∃ vm, ∀ n, (5 ≤ n)%nat →
     compile_and_run n (new 1024) jump_back_source = Ok (Some (Ok (), vm, ["7"]))).
Proof.
  split; [|split; [|split]].
  - intros vm k Hk Hip. split.
    + intros Hle.
      assert (Hlt : (length (program vm) - Z.to_nat k < length (program vm))%nat) by lia.
      destruct (lookup_lt_is_Some_2 _ _ Hlt) as [[i o] Hio].
      exists i, o. split; [done|].
      rewrite (execute_fetch vm i o); [by rewrite Hip|].
      split; [lia|]. rewrite Hip, getitem_negative by lia. done.
    + intros Hlt. unfold execute_instruction.
      destruct (Z.leb_spec (Z.of_nat (length (program vm))) (ip vm)); [lia|].
      by rewrite Hip, getitem_below.
  - intros vm i target _ Hf. rewrite (execute_fetch _ _ _ Hf).
    split; [by intros ->|]. split; [by intros ->|].
    intros value s Hi Hs Hc.
    by destruct Hi as [-> | ->]; simpl in *; rewrite Hs; simpl; rewrite Hc.
  - intros vm o address c _ Hf Hc. rewrite (execute_fetch _ _ _ Hf). simpl.
    by rewrite Hc.
  - eexists. intros n Hn. eapply compile_and_run_mono; [|exact Hn].
    vm_compute. reflexivity.
Qed.

Lemma negative_ip_witness :
  0 < 1 ∧ ip at_minus_one = - 1 ∧
  execute_instruction at_minus_one
    = (Continue, mkVM [2] [] [] [(PUSH, Some 1); (PUSH, Some 2)] 0 true, []).
Proof.
  assert (H0 : 0 < 1) by lia.
  assert (Hip : ip at_minus_one = - 1) by reflexivity.
  split; [exact H0|]. split; [exact Hip|].
  destruct (proj1 (proj1 negative_ip _ _ H0 Hip) ltac:(simpl; lia))
    as (i & o & Hio & He).
  injection Hio as <- <-. exact He.
Defined.

(** Counterexample to C9 as stated, below [-len(program)]:
    [jump_below_source] has two instructions and jumps to -5; the next
    fetch raises [IndexError] instead of yielding an instruction, and the
    run ends as a fault. *)
Lemma jump_below_faults :
  AssemblyCompiler.compile jump_below_source = Ok [(JMP, Int (-5)); (HALT, NoOperand)] ∧
  ∃ vm,
    compile_and_run 10 (new 1024) jump_below_source
      = Ok (Some (Ok (), vm, ["Runtime error: list index out of range"])) ∧
    ip vm = -5 ∧ length (program vm) = 2%nat ∧
    execute_instruction (with_running true vm)
      = (Raise IndexOutOfRange, with_running true vm, []).
Proof.
  split; [vm_compute; reflexivity|].
  eexists. split; [vm_compute; reflexivity|].
  split; [reflexivity|]. split; [reflexivity|]. vm_compute. reflexivity.
Qed.

End MachineProperties.

(** ** Lines and tokens of a plain source *)

Section PlainSources.
Import AssemblyCompiler.













End PlainSources.

(** ** Properties of the assembler *)

Section AssemblerProperties.
Import AssemblyCompiler.

(** C1: a label line binds the name to the number of instructions
    collected so far and emits nothing.  After a first pass that does not
    raise, a name is bound to the number of instructions collected before
    its last declaration, which is the index of the instruction emitted
    next, if any.  The second pass keeps the length of the list, replaces
    each label operand by the index the name is bound to and leaves the
    other entries alone; so two references to one name get the same index,
    wherever they stand.  In [references_source] the references before and
    after [top:] both become 2. *)
Theorem labels_bind_next_index :
  (∀ st line name, Py.label_match (clean line) = Some name →
     parse_line st line
       = Ok (mkState (<[name := length (instructions st)]> (labels st))
                     (instructions st), None)) ∧
  (∀ source st, first_pass initial (Py.splitlines source) = Ok st →
     (∀ pre line post name,
        Py.splitlines source = pre ++ line :: post →
        Py.label_match (clean line) = Some name →
        (∀ l, l ∈ post → Py.label_match (clean l) ≠ Some name) →
        ∃ st1 later,
          first_pass initial pre = Ok st1 ∧
          instructions st = instructions st1 ++ later ∧
          labels st !! name = Some (length (instructions st1))) ∧
     (∀ prog, compile source = Ok prog →
        length prog = length (instructions st) ∧
        (∀ k instr name, instructions st !! k = Some (instr, Label name) →
           ∃ index, labels st !! name = Some index ∧
                    prog !! k = Some (instr, Int (Z.of_nat index))) ∧
        (∀ k instr o, instructions st !! k = Some (instr, o) →
           is_label o = false → prog !! k = Some (instr, o)) ∧
        (∀ j k instr instr' name,
           instructions st !! j = Some (instr, Label name) →
           instructions st !! k = Some (instr', Label name) →
           ∃ index, prog !! j = Some (instr, Int index) ∧
                    prog !! k = Some (instr', Int index)))) ∧
  compile references_source
    = Ok [(JMP, Int 2); (PUSH, Int 1); (PUSH, Int 2); (JMP, Int 2)].
Proof.
  split; [exact parse_line_label|]. split; [|vm_compute; reflexivity].
  intros source st Hfirst. split.
  - intros pre line post name Hlines Hl Hpost.
    rewrite Hlines, first_pass_app in Hfirst.
    destruct (first_pass initial pre) as [st1|] eqn:Hpre; [|done].
    simpl in Hfirst. rewrite (parse_line_label _ _ _ Hl) in Hfirst.
    simpl in Hfirst.
    destruct (first_pass_grows _ _ _ Hfirst) as ((later & Hi) & _ & Hkeep & _).
    exists st1, later. split; [done|]. split; [done|].
    rewrite (Hkeep name Hpost). simpl. apply lookup_insert_eq.
  - intros prog Hc. unfold compile in Hc. rewrite Hfirst in Hc. simpl in Hc.
    apply second_pass_ok in Hc.
    assert (Hlab : ∀ k instr name,
              instructions st !! k = Some (instr, Label name) →
              ∃ index, labels st !! name = Some index ∧
                       prog !! k = Some (instr, Int (Z.of_nat index))).
    { intros k instr name Hk.
      destruct (Forall2_lookup_l _ _ _ _ _ Hc Hk) as (res & Hres & index & Hi & ->).
      eauto. }
    split; [symmetry; by eapply Forall2_length|]. split; [done|]. split.
    + intros k instr o Hk Ho.
      destruct (Forall2_lookup_l _ _ _ _ _ Hc Hk) as (res & Hres & Hr).
      destruct o; simpl in *; by subst.
    + intros j k instr instr' name Hj Hk.
      destruct (Hlab _ _ _ Hj) as (index & Hi & Hpj).
      destruct (Hlab _ _ _ Hk) as (index' & Hi' & Hpk).
      exists (Z.of_nat index). split; [done|]. congruence.
Qed.

Lemma labels_bind_next_index_witness :
  Py.label_match (clean "top:  ; here") = Some "top" ∧
  parse_line (mkState ∅ [(PUSH, Int 1)]) "top:  ; here"
    = Ok (mkState {[ "top" := 1%nat ]} [(PUSH, Int 1)], None).
Proof.
  assert (H : Py.label_match (clean "top:  ; here") = Some "top") by reflexivity.
  split; [exact H|].
  exact (proj1 labels_bind_next_index (mkState ∅ [(PUSH, Int 1)]) _ _ H).
Defined.



(** C10 (amended): a name made of [\w] characters that has a digit or an
    underscore is accepted as a label declaration, and as an operand it is
    never a label reference: the token goes to [int].  When [int] rejects
    it, which it does whenever the name has a letter, the line raises the
    invalid operand carrying the name, and so does the compilation if the
    lines before did not raise; when [int] accepts it the instruction
    carries that integer.  [digit_label_source], which declares [loop1] and
    jumps to it, fails with the invalid operand [loop1]. *)
Theorem label_names_with_digits name :
  name ≠ EmptyString →
  Py.all_chars Py.isword name = true →
  Py.any_char (λ c, Py.isdigit c || (Py.ord c =? 95)%N) name = true →
  (∀ st, parse_line st (name +:+ ":")
           = Ok (mkState (<[name := length (instructions st)]> (labels st))
                         (instructions st), None)) ∧
  (∀ st line op rest instr,
     Py.label_match (clean line) = None →
     Py.split (clean line) = op :: name :: rest →
     instruction_map !! Py.upper op = Some instr →
     parse_line st line
       = match Py.int name with
         | Some n => Ok (st, Some (instr, Int n))
         | None => Err (InvalidOperand name)
         end) ∧
  (Py.any_char Py.isalpha_char name = true → Py.int name = None) ∧
  (∀ source pre line post st op rest,
     Py.splitlines source = pre ++ line :: post →
     first_pass initial pre = Ok st →
     Py.label_match (clean line) = None →
     Py.split (clean line) = op :: name :: rest →
     is_Some (instruction_map !! Py.upper op) →
     Py.int name = None →
     compile source = Err (InvalidOperand name)) ∧
  compile digit_label_source = Err (InvalidOperand "loop1").
Proof.
  intros Hne Hw Hd.
  assert (Hline : ∀ st line op rest instr,
     Py.label_match (clean line) = None →
     Py.split (clean line) = op :: name :: rest →
     instruction_map !! Py.upper op = Some instr →
     parse_line st line
       = match Py.int name with
         | Some n => Ok (st, Some (instr, Int n))
         | None => Err (InvalidOperand name)
         end).
  { intros st line op rest instr Hl Hs Hm.
    rewrite (parse_line_instruction _ _ _ _ Hl Hs), Hm.
    rewrite parse_operand_not_alpha
      by (by apply isalpha_false_of_digit_or_underscore).
    by destruct (Py.int name). }
  split; [|split; [done|split; [|split]]].
  - intros st. apply parse_line_label. unfold clean.
    rewrite strip_remove_comment_word_colon by done.
    by apply label_match_word_colon.
  - by apply int_word_with_letter.
  - intros source pre line post st op rest Hlines Hpre Hl Hs [instr Hm] Hi.
    unfold compile. rewrite Hlines.
    rewrite (first_pass_first_error _ _ _ _ st (InvalidOperand name)); [done..|].
    by rewrite (Hline _ _ _ _ _ Hl Hs Hm), Hi.
  - vm_compute. reflexivity.
Qed.

Lemma label_names_with_digits_witness :
  "loop1" ≠ EmptyString ∧
  Py.all_chars Py.isword "loop1" = true ∧
  Py.any_char (λ c, Py.isdigit c || (Py.ord c =? 95)%N) "loop1" = true ∧
  parse_line initial "loop1:" = Ok (mkState {[ "loop1" := 0%nat ]} [], None) ∧
  Py.int "loop1" = None.
Proof.
  assert (H1 : "loop1" ≠ EmptyString) by discriminate.
  assert (H2 : Py.all_chars Py.isword "loop1" = true) by reflexivity.
  assert (H3 : Py.any_char (λ c, Py.isdigit c || (Py.ord c =? 95)%N) "loop1" = true)
    by reflexivity.
  split; [exact H1|]. split; [exact H2|]. split; [exact H3|].
  destruct (label_names_with_digits "loop1" H1 H2 H3) as (Hdecl & _ & Hint & _).
  split; [exact (Hdecl initial)|]. exact (Hint eq_refl).
Defined.

(** Counterexample to C10 as stated, a name that [int] accepts: the line
    [7:] declares the label [7], bound to index 1 here, and [JMP 7]
    assembles without error, its operand the integer 7. *)
Lemma number_label_compiles :
  Py.any_char (λ c, Py.isdigit c || (Py.ord c =? 95)%N) "7" = true ∧
  Py.label_match (clean "7:") = Some "7" ∧
  (∃ st, first_pass initial (Py.splitlines number_label_source) = Ok st ∧
         labels st !! "7" = Some 1%nat) ∧
  compile number_label_source = Ok [(PUSH, Int 1); (JMP, Int 7)].
Proof.
  split; [reflexivity|]. split; [reflexivity|].
  split; [eexists; split; [vm_compute; reflexivity|reflexivity]|].
  vm_compute. reflexivity.
Qed.

End AssemblerProperties.

(** ** More about the assembler *)

Section AssemblerMore.
Import AssemblyCompiler.

Lemma isspace_not_semicolon c : Py.isspace c = true → (Py.ord c =? 59)%N = false.
Proof. destruct c as [[] [] [] [] [] [] [] []]; vm_compute; intuition congruence. Qed.

Lemma lstrip_spaces ws s :
  Py.all_chars Py.isspace ws = true → Py.lstrip (ws +:+ s) = Py.lstrip s.
Proof.
  induction ws as [|a ws IH]; simpl; [done|].
  intros [Ha Hws]%andb_true_iff. rewrite Ha. by apply IH.
Qed.

Lemma remove_comment_app body rest :
  Py.all_chars (λ c, negb (Py.ord c =? 59)%N) body = true →
  Py.remove_comment (body +:+ rest) = body +:+ Py.remove_comment rest.
Proof.
  induction body as [|a body IH]; simpl; [done|].
  intros [Ha Hb]%andb_true_iff. apply negb_true_iff in Ha. rewrite Ha.
  by rewrite IH.
Qed.

Lemma rstrip_word_app w s :
  Py.all_chars Py.isword w = true → Py.rstrip (w +:+ s) = w +:+ Py.rstrip s.
Proof.
  induction w as [|a w IH]; simpl; [done|].
  intros [Ha Hw]%andb_true_iff. by rewrite (isword_not_space _ Ha), IH.
Qed.

Lemma word_prefix_word_app w rest :
  Py.all_chars Py.isword w = true →
  Py.word_prefix (w +:+ String ":" rest) = (w, String ":" rest).
Proof.
  induction w as [|a w IH]; simpl; [done|].
  intros [Ha Hw]%andb_true_iff. by rewrite Ha, IH.
Qed.

(** The cleaned form of a line that starts, after blanks, with a word and
    a colon still starts with that word and colon. *)
Lemma clean_label_line ws w rest :
  w ≠ EmptyString →
  Py.all_chars Py.isspace ws = true →
  Py.all_chars Py.isword w = true →
  ∃ rest', clean (ws +:+ w +:+ String ":" rest) = w +:+ String ":" rest'.
Proof.
  intros Hne Hws Hw. unfold clean.
  rewrite remove_comment_app
    by (eapply all_chars_impl; [|exact Hws];
        intros c Hc; by rewrite (isspace_not_semicolon _ Hc)).
  rewrite remove_comment_app
    by (eapply all_chars_impl; [|exact Hw];
        intros c Hc; by rewrite (isword_not_semicolon _ Hc)).
  change (Py.remove_comment (String ":" rest))
    with (String ":" (Py.remove_comment rest)).
  unfold Py.strip. rewrite lstrip_spaces by done.
  destruct w as [|a w]; [done|]. simpl in Hw |- *.
  apply andb_true_iff in Hw as [Ha Hw]. rewrite (isword_not_space _ Ha).
  change (String a (w +:+ String ":" (Py.remove_comment rest)))
    with (String a w +:+ String ":" (Py.remove_comment rest)).
  rewrite rstrip_word_app by (simpl; by rewrite Ha, Hw).
  change (Py.rstrip (String ":" (Py.remove_comment rest)))
    with (String ":" (Py.rstrip (Py.remove_comment rest))).
  eauto.
Qed.

(** X1: a line that starts, after optional blanks, with a word and a colon
    is a label declaration whatever follows the colon: the name is bound to
    the current instruction count and nothing is returned, so an
    instruction written after the label on the same line is dropped
    without an error. *)
Theorem label_line_drops_rest st ws w rest :
  w ≠ EmptyString →
  Py.all_chars Py.isspace ws = true →
  Py.all_chars Py.isword w = true →
  parse_line st (ws +:+ w +:+ String ":" rest)
    = Ok (mkState (<[w := length (instructions st)]> (labels st))
                  (instructions st), None).
Proof.
  intros Hne Hws Hw. apply parse_line_label.
  destruct (clean_label_line ws w rest Hne Hws Hw) as [rest' ->].
  unfold Py.label_match. rewrite word_prefix_word_app by done.
  by destruct w.
Qed.

Lemma label_line_drops_rest_witness :
  "sub" ≠ EmptyString ∧
  Py.all_chars Py.isspace "  " = true ∧
  Py.all_chars Py.isword "sub" = true ∧
  parse_line initial "  sub: PUSH 9 ; not assembled"
    = Ok (mkState {[ "sub" := 0%nat ]} [], None).
Proof.
  assert (H1 : "sub" ≠ EmptyString) by discriminate.
  assert (H2 : Py.all_chars Py.isspace "  " = true) by reflexivity.
  assert (H3 : Py.all_chars Py.isword "sub" = true) by reflexivity.
  split; [exact H1|]. split; [exact H2|]. split; [exact H3|].
  exact (label_line_drops_rest initial "  " "sub" " PUSH 9 ; not assembled" H1 H2 H3).
Defined.

(** X2: what follows the first semicolon of a line has no effect: a line
    [body ; comment] without line break, as [compile] passes them, with
    [body] free of semicolons, is parsed as [body] alone, whatever the
    comment holds. *)
Theorem comment_ignored st body comment :
  Py.all_chars (λ c, negb (Py.islinebreak c)) (body +:+ String ";" comment) = true →
  Py.all_chars (λ c, negb (Py.ord c =? 59)%N) body = true →
  parse_line st (body +:+ String ";" comment) = parse_line st body.
Proof.
  intros _ Hb.
  assert (Hc : clean (body +:+ String ";" comment) = clean body).
  { unfold clean. f_equal. rewrite remove_comment_app by done.
    change (Py.remove_comment (String ";" comment)) with EmptyString.
    rewrite remove_comment_id by done.
    clear Hb. induction body as [|a body IH]; [done|].
    change (String a body +:+ EmptyString) with (String a (body +:+ EmptyString)).
    by f_equal. }
  unfold parse_line. by rewrite Hc.
Qed.

Lemma comment_ignored_witness :
  Py.all_chars (λ c, negb (Py.islinebreak c)) "push 3 ; FOO: bar 1x" = true ∧
  Py.all_chars (λ c, negb (Py.ord c =? 59)%N) "push 3 " = true ∧
  parse_line initial "push 3 ; FOO: bar 1x" = parse_line initial "push 3 ".
Proof.
  assert (H0 : Py.all_chars (λ c, negb (Py.islinebreak c))
                 ("push 3 " +:+ String ";" " FOO: bar 1x") = true)
    by reflexivity.
  assert (H : Py.all_chars (λ c, negb (Py.ord c =? 59)%N) "push 3 " = true)
    by reflexivity.
  split; [exact H0|]. split; [exact H|].
  exact (comment_ignored initial "push 3 " " FOO: bar 1x" H0 H).
Defined.

(** X3: of an instruction line [parse_line] reads the first token up to
    letter case and the second token, nothing else: two lines (without
    line break, as [compile] passes them) that agree on these are parsed
    alike, whatever tokens follow. *)
Theorem tokens_beyond_second_ignored st l1 l2 name1 name2 rest1 rest2 :
  Py.all_chars (λ c, negb (Py.islinebreak c)) l1 = true →
  Py.all_chars (λ c, negb (Py.islinebreak c)) l2 = true →
  Py.label_match (clean l1) = None → Py.split (clean l1) = name1 :: rest1 →
  Py.label_match (clean l2) = None → Py.split (clean l2) = name2 :: rest2 →
  Py.upper name1 = Py.upper name2 →
  head rest1 = head rest2 →
  parse_line st l1 = parse_line st l2.
Proof.
  intros _ _ Hl1 Hs1 Hl2 Hs2 Hu Hh.
  rewrite (parse_line_instruction _ _ _ _ Hl1 Hs1).
  rewrite (parse_line_instruction _ _ _ _ Hl2 Hs2), Hu.
  destruct (instruction_map !! Py.upper name2); [|done].
  destruct rest1 as [|t1 r1], rest2 as [|t2 r2]; simplify_eq/=; done.
Qed.

Lemma tokens_beyond_second_ignored_witness :
  Py.all_chars (λ c, negb (Py.islinebreak c)) "push 5 6 seven" = true ∧
  Py.all_chars (λ c, negb (Py.islinebreak c)) "PuSh 5" = true ∧
  Py.label_match (clean "push 5 6 seven") = None ∧
  Py.split (clean "push 5 6 seven") = ["push"; "5"; "6"; "seven"] ∧
  Py.label_match (clean "PuSh 5") = None ∧
  Py.split (clean "PuSh 5") = ["PuSh"; "5"] ∧
  parse_line initial "push 5 6 seven" = parse_line initial "PuSh 5".
Proof.
  assert (Ha : Py.all_chars (λ c, negb (Py.islinebreak c)) "push 5 6 seven" = true)
    by reflexivity.
  assert (Hb : Py.all_chars (λ c, negb (Py.islinebreak c)) "PuSh 5" = true)
    by reflexivity.
  assert (H1 : Py.label_match (clean "push 5 6 seven") = None) by reflexivity.
  assert (H2 : Py.split (clean "push 5 6 seven") = ["push"; "5"; "6"; "seven"])
    by reflexivity.
  assert (H3 : Py.label_match (clean "PuSh 5") = None) by reflexivity.
  assert (H4 : Py.split (clean "PuSh 5") = ["PuSh"; "5"]) by reflexivity.
  split; [exact Ha|]. split; [exact Hb|].
  split; [exact H1|]. split; [exact H2|]. split; [exact H3|]. split; [exact H4|].
  exact (tokens_beyond_second_ignored initial _ _ _ _ _ _
           Ha Hb H1 H2 H3 H4 eq_refl eq_refl).
Defined.

Lemma first_pass_length st lines st' :
  first_pass st lines = Ok st' →
  length (instructions st')
    = (length (instructions st) + length (List.filter emits lines))%nat.
Proof.
  revert st. induction lines as [|line lines IH]; intros st; simpl.
  - intros [= <-]. lia.
  - unfold emits at 1.
    destruct (line_cases line) as [Hb|[[name Hl]|(name & rest & Hl & Hs)]].
    + rewrite (parse_line_blank _ _ Hb), Hb. simpl. apply IH.
    + rewrite (parse_line_label _ _ _ Hl), Hl, andb_false_r. simpl.
      intros H. by rewrite (IH _ H).
    + rewrite (parse_line_instruction _ _ _ _ Hl Hs), Hl.
      destruct (Py.is_empty (clean line)) eqn:He.
      { apply is_empty_true in He. by rewrite He in Hs. }
      destruct (instruction_map !! Py.upper name) as [instr|]; [|done].
      destruct (parse_operand (name :: rest)) as [o|e]; [|done].
      simpl. intros H. rewrite (IH _ H). simpl. rewrite length_app. simpl. lia.
Qed.

(** X4: the program [compile] returns has one entry per line that is
    neither blank (once the comment is removed) nor a label declaration;
    such lines take up no address. *)
Theorem program_length source prog :
  compile source = Ok prog →
  length prog = length (List.filter emits (Py.splitlines source)).
Proof.
  unfold compile.
  destruct (first_pass initial (Py.splitlines source)) as [st|] eqn:Hfirst;
    [|done].
  simpl. intros H%second_pass_ok%Forall2_length.
  by rewrite <-H, (first_pass_length _ _ _ Hfirst).
Qed.

Lemma program_length_witness :
  compile call_source
    = Ok [(CALL, Int 2); (HALT, NoOperand); (PUSH, Int 9); (PRINT, NoOperand);
          (RET, NoOperand)] ∧
  length [(CALL, Int 2); (HALT, NoOperand); (PUSH, Int 9); (PRINT, NoOperand);
          (RET, NoOperand)]
    = length (List.filter emits (Py.splitlines call_source)).
Proof.
  assert (H : compile call_source
              = Ok [(CALL, Int 2); (HALT, NoOperand); (PUSH, Int 9);
                    (PRINT, NoOperand); (RET, NoOperand)])
    by (vm_compute; reflexivity).
  split; [exact H|]. exact (program_length _ _ H).
Defined.

Lemma first_pass_labels_bounded st lines st' :
  first_pass st lines = Ok st' →
  (∀ n i, labels st !! n = Some i → (i ≤ length (instructions st))%nat) →
  ∀ n i, labels st' !! n = Some i → (i ≤ length (instructions st'))%nat.
Proof.
  revert st. induction lines as [|line lines IH]; intros st H Hst.
  - by injection H as <-.
  - destruct (first_pass_cons_ok _ _ _ _ H) as (st1 & H1 & Hline).
    apply (IH _ H1).
    destruct Hline as [(name & Hl & ->)|(Hl & Hlab & new & Hnew)]; simpl.
    + intros n i. destruct (decide (name = n)) as [->|Hne].
      * rewrite lookup_insert_eq. intros [= <-]. lia.
      * rewrite lookup_insert_ne by done. apply Hst.
    + intros n i Hn. rewrite Hlab in Hn. rewrite Hnew, length_app.
      specialize (Hst _ _ Hn). lia.
Qed.

(** X5: a label operand is resolved to an index between 0 and the length
    of the program, the length included (a label declared after the last
    instruction): a jump to a label lands on an instruction of the
    program or exactly at its end. *)
Theorem label_targets_in_range source st prog :
  first_pass initial (Py.splitlines source) = Ok st →
  compile source = Ok prog →
  ∀ k instr name, instructions st !! k = Some (instr, Label name) →
    ∃ index, prog !! k = Some (instr, Int (Z.of_nat index)) ∧
             (index ≤ length prog)%nat.
Proof.
  intros Hfirst Hc k instr name Hk. unfold compile in Hc.
  rewrite Hfirst in Hc. simpl in Hc. apply second_pass_ok in Hc.
  destruct (Forall2_lookup_l _ _ _ _ _ Hc Hk) as (res & Hres & index & Hi & ->).
  exists index. split; [done|].
  rewrite <-(Forall2_length _ _ _ Hc).
  eapply (first_pass_labels_bounded _ _ _ Hfirst); [|exact Hi].
  intros n i. unfold initial. simpl. by rewrite lookup_empty.
Qed.

Lemma label_targets_in_range_witness :
  first_pass initial (Py.splitlines (unlines ["JMP end"; "end:"]))
    = Ok (mkState {[ "end" := 1%nat ]} [(JMP, Label "end")]) ∧
  compile (unlines ["JMP end"; "end:"]) = Ok [(JMP, Int 1)] ∧
  ∃ index, [(JMP, Int 1)] !! 0%nat = Some (JMP, Int (Z.of_nat index)) ∧
           (index ≤ length [(JMP, Int 1)])%nat.
Proof.
  assert (H1 : first_pass initial (Py.splitlines (unlines ["JMP end"; "end:"]))
               = Ok (mkState {[ "end" := 1%nat ]} [(JMP, Label "end")]))
    by reflexivity.
  assert (H2 : compile (unlines ["JMP end"; "end:"]) = Ok [(JMP, Int 1)])
    by reflexivity.
  split; [exact H1|]. split; [exact H2|].
  exact (label_targets_in_range _ _ _ H1 H2 0%nat JMP "end" eq_refl).
Defined.

(** X6: what the second pass returns holds no label name any more, so a
    further resolution of it, against any table, changes nothing. *)
Theorem second_pass_idempotent tbl instrs prog :
  second_pass tbl instrs = Ok prog →
  Forall (λ entry, is_label entry.2 = false) prog ∧
  ∀ tbl', second_pass tbl' prog = Ok prog.
Proof.
  revert prog. induction instrs as [|[i o] instrs IH]; intros prog; simpl.
  - by intros [= <-].
  - assert (Hrest : ∀ rest o', second_pass tbl instrs = Ok rest →
              is_label o' = false →
              Forall (λ entry, is_label entry.2 = false) ((i, o') :: rest) ∧
              ∀ tbl', second_pass tbl' ((i, o') :: rest) = Ok ((i, o') :: rest)).
    { intros rest o' Hr Ho. destruct (IH _ Hr) as [Hall Hfix].
      split; [by constructor|]. intros tbl'. simpl. rewrite (Hfix tbl').
      by destruct o'. }
    destruct o as [|n|name].
    + destruct (second_pass tbl instrs) as [rest|]; [|done].
      intros [= <-]. by apply Hrest.
    + destruct (second_pass tbl instrs) as [rest|]; [|done].
      intros [= <-]. by apply Hrest.
    + destruct (tbl !! name) as [index|]; [|done].
      destruct (second_pass tbl instrs) as [rest|]; [|done].
      intros [= <-]. by apply Hrest.
Qed.

Lemma second_pass_idempotent_witness :
  second_pass {[ "top" := 0%nat ]} [(PUSH, Int 1); (JMP, Label "top")]
    = Ok [(PUSH, Int 1); (JMP, Int 0)] ∧
  second_pass ∅ [(PUSH, Int 1); (JMP, Int 0)] = Ok [(PUSH, Int 1); (JMP, Int 0)].
Proof.
  assert (H : second_pass {[ "top" := 0%nat ]} [(PUSH, Int 1); (JMP, Label "top")]
              = Ok [(PUSH, Int 1); (JMP, Int 0)]) by reflexivity.
  split; [exact H|]. exact (proj2 (second_pass_idempotent _ _ _ H) ∅).
Defined.

End AssemblerMore.

(** ** More about one step of the machine *)

Section StepMore.
Import VirtualMachine.

(** The three ways a call of [execute_instruction] starts. *)
Lemma execute_cases vm :
  (Z.of_nat (length (program vm)) ≤ ip vm ∧
     execute_instruction vm = (Stop, vm, [])) ∨
  (ip vm < - Z.of_nat (length (program vm)) ∧
     execute_instruction vm = (Raise IndexOutOfRange, vm, [])) ∨
  (∃ i o, fetches vm i o ∧
     execute_instruction vm = dispatch i o (with_ip (ip vm + 1) vm)).
Proof.
  destruct (Z.le_gt_cases (Z.of_nat (length (program vm))) (ip vm)) as [Hge|Hlt].
  { left. split; [done|]. by apply execute_past_end. }
  right. destruct (Z.lt_ge_cases (ip vm) (- Z.of_nat (length (program vm))))
    as [Hlow|Hin].
  - left. split; [done|]. unfold execute_instruction.
    destruct (Z.leb_spec (Z.of_nat (length (program vm))) (ip vm)); [lia|].
    replace (ip vm) with (- (- ip vm)) by lia.
    by rewrite getitem_below by lia.
  - right.
    assert (Hsome : is_Some (getitem (program vm) (ip vm))).
    { destruct (Z.le_gt_cases 0 (ip vm)).
      - rewrite getitem_nonneg by done. apply lookup_lt_is_Some. lia.
      - replace (ip vm) with (- (- ip vm)) by lia.
        rewrite getitem_negative by lia. apply lookup_lt_is_Some. lia. }
    destruct Hsome as [[i o] Hio]. exists i, o.
    assert (Hf : fetches vm i o) by done.
    split; [done|]. by apply execute_fetch.
Qed.

(** [dispatch] leaves the program, the flag and the size of the memory. *)
Lemma dispatch_keeps i o vm r vm' out :
  dispatch i o vm = (r, vm', out) →
  program vm' = program vm ∧ running vm' = running vm ∧
  length (memory vm') = length (memory vm).
Proof.
  unfold dispatch, binary. intros H.
  repeat (case_match; simplify_eq/=; rewrite ?length_insert; try done).
Qed.

(** X8: a step never touches the loaded program nor the [running] flag,
    and the memory keeps the size it got at construction. *)
Theorem step_keeps_program_and_size vm r vm' out :
  execute_instruction vm = (r, vm', out) →
  program vm' = program vm ∧ running vm' = running vm ∧
  length (memory vm') = length (memory vm).
Proof.
  destruct (execute_cases vm) as [[_ ->]|[[_ ->]|(i & o & _ & ->)]].
  - by intros [= _ <- _].
  - by intros [= _ <- _].
  - intros H. by apply dispatch_keeps in H.
Qed.

Lemma step_keeps_program_and_size_witness :
  execute_instruction before_store
    = (Continue,
       mkVM [] [0; 42] [] [(STORE, None); (LOAD, None)] 1 true, []) ∧
  length [0; 42] = length (memory before_store).
Proof.
  assert (H : execute_instruction before_store
              = (Continue,
                 mkVM [] [0; 42] [] [(STORE, None); (LOAD, None)] 1 true, []))
    by reflexivity.
  split; [exact H|].
  exact (proj2 (proj2 (step_keeps_program_and_size _ _ _ _ H))).
Defined.

(** X9: the memory is written by [STORE] only, and one cell at a time: a
    step either leaves the memory as it was, or it executed [STORE] on a
    stack [value, address, ...] with the address in range and the memory
    differs in that one cell. *)
Theorem only_store_writes_memory vm r vm' out :
  execute_instruction vm = (r, vm', out) →
  memory vm' = memory vm ∨
  ∃ o value address s,
    fetches vm STORE o ∧ stack vm = value :: address :: s ∧
    0 ≤ address < Z.of_nat (length (memory vm)) ∧
    memory vm' = <[Z.to_nat address := value]> (memory vm).
Proof.
  destruct (execute_cases vm) as [[_ ->]|[[_ ->]|(i & o & Hf & ->)]].
  - intros [= _ <- _]. by left.
  - intros [= _ <- _]. by left.
  - destruct (decide (i = STORE)) as [->|Hne].
    + simpl. destruct (stack vm) as [|value [|address s]] eqn:Hs;
        [intros [= _ <- _]; by left..|].
      unfold out_of_bounds. simpl.
      destruct (Z.ltb_spec address 0); simpl; [intros [= _ <- _]; by left|].
      destruct (Z.leb_spec (Z.of_nat (length (memory vm))) address);
        [intros [= _ <- _]; by left|].
      intros [= _ <- _]. right. exists o, value, address, s. simpl.
      split; [exact Hf|]. split; [done|]. split; [lia|done].
    + intros H. left. unfold dispatch, binary in H.
      repeat (case_match; simplify_eq/=; try done).
Qed.

Lemma only_store_writes_memory_witness :
  execute_instruction before_store
    = (Continue,
       mkVM [] [0; 42] [] [(STORE, None); (LOAD, None)] 1 true, []) ∧
  ([0; 42] = memory before_store ∨
   ∃ o value address s,
     fetches before_store STORE o ∧ stack before_store = value :: address :: s ∧
     0 ≤ address < Z.of_nat (length (memory before_store)) ∧
     [0; 42] = <[Z.to_nat address := value]> (memory before_store)).
Proof.
  assert (H : execute_instruction before_store
              = (Continue,
                 mkVM [] [0; 42] [] [(STORE, None); (LOAD, None)] 1 true, []))
    by reflexivity.
  split; [exact H|]. exact (only_store_writes_memory _ _ _ _ H).
Defined.

(** X10: only [PRINT] writes to the output, one line per step: the lines
    a step prints are none, or the decimal text of the value that was on
    top of the stack of a [PRINT]. *)
Theorem only_print_writes_output vm r vm' out :
  execute_instruction vm = (r, vm', out) →
  out = [] ∨
  ∃ o value s,
    fetches vm PRINT o ∧ stack vm = value :: s ∧ out = [Py.str value] ∧
    r = Continue ∧ stack vm' = s.
Proof.
  destruct (execute_cases vm) as [[_ ->]|[[_ ->]|(i & o & Hf & ->)]].
  - intros [= _ _ <-]. by left.
  - intros [= _ _ <-]. by left.
  - destruct (decide (i = PRINT)) as [->|Hne].
    + simpl. destruct (stack vm) as [|value s] eqn:Hs.
      * intros [= _ _ <-]. by left.
      * intros [= <- <- <-]. right. by exists o, value, s.
    + intros H. left. unfold dispatch, binary in H.
      repeat (case_match; simplify_eq/=; try done).
Qed.

Lemma only_print_writes_output_witness :
  execute_instruction before_ret
    = (Continue, mkVM [3] [] [9] [(CALL, Some 7); (RET, None)] 1 true, []) ∧
  ([] = @nil string ∨
   ∃ o value s,
     fetches before_ret PRINT o ∧ stack before_ret = value :: s ∧
     [] = [Py.str value] ∧ Continue = Continue ∧ [3] = s).
Proof.
  assert (H : execute_instruction before_ret
              = (Continue, mkVM [3] [] [9] [(CALL, Some 7); (RET, None)] 1 true, []))
    by reflexivity.
  split; [exact H|]. exact (only_print_writes_output _ _ _ _ H).
Defined.

(** X11: a value stored is the value loaded: after [STORE] of [value] at an
    address in range, a [LOAD] of that address on the memory so obtained
    pushes [value], and a [LOAD] of any other address in range pushes what
    the cell held before the [STORE]. *)
Theorem store_then_load vm o value address s :
  fetches vm STORE o →
  stack vm = value :: address :: s →
  0 ≤ address < Z.of_nat (length (memory vm)) →
  ∃ vm1,
    execute_instruction vm = (Continue, vm1, []) ∧
    stack vm1 = s ∧
    ∀ vm2 o2 a s2,
      memory vm2 = memory vm1 → fetches vm2 LOAD o2 → stack vm2 = a :: s2 →
      0 ≤ a < Z.of_nat (length (memory vm)) →
      execute_instruction vm2
        = (Continue,
           with_stack ((if decide (a = address) then value
                        else nth (Z.to_nat a) (memory vm) 0) :: s2)
                      (with_ip (ip vm2 + 1) vm2), []).
Proof.
  intros Hf Hs Hin. rewrite (execute_fetch _ _ _ Hf). simpl. rewrite Hs.
  unfold out_of_bounds. simpl.
  destruct (Z.ltb_spec address 0); [lia|].
  destruct (Z.leb_spec (Z.of_nat (length (memory vm))) address); [lia|]. simpl.
  eexists. split; [done|]. split; [done|]. simpl.
  intros vm2 o2 a s2 Hm Hf2 Hs2 Ha. rewrite (execute_fetch _ _ _ Hf2). simpl.
  rewrite Hs2. unfold out_of_bounds. simpl. rewrite Hm, length_insert.
  destruct (Z.ltb_spec a 0); [lia|].
  destruct (Z.leb_spec (Z.of_nat (length (memory vm))) a); [lia|]. simpl.
  assert (Hnth : nth (Z.to_nat a) (<[Z.to_nat address:=value]> (memory vm)) 0
                 = if decide (a = address) then value
                   else nth (Z.to_nat a) (memory vm) 0).
  { rewrite !nth_lookup. destruct (decide (a = address)) as [->|Hne].
    - by rewrite list_lookup_insert_eq by lia.
    - by rewrite list_lookup_insert_ne by lia. }
  by rewrite Hnth.
Qed.

Lemma store_then_load_witness :
  fetches before_store STORE None ∧
  stack before_store = [42; 1] ∧
  0 ≤ 1 < Z.of_nat (length (memory before_store)) ∧
  ∃ vm1,
    execute_instruction before_store = (Continue, vm1, []) ∧
    stack vm1 = [] ∧
    ∀ vm2 o2 a s2,
      memory vm2 = memory vm1 → fetches vm2 LOAD o2 → stack vm2 = a :: s2 →
      0 ≤ a < Z.of_nat (length (memory before_store)) →
      execute_instruction vm2
        = (Continue,
           with_stack ((if decide (a = 1) then 42
                        else nth (Z.to_nat a) (memory before_store) 0) :: s2)
                      (with_ip (ip vm2 + 1) vm2), []).
Proof.
  assert (H1 : fetches before_store STORE None) by (split; reflexivity).
  assert (H2 : stack before_store = [42; 1]) by reflexivity.
  assert (H3 : 0 ≤ 1 < Z.of_nat (length (memory before_store)))
    by (simpl; lia).
  split; [exact H1|]. split; [exact H2|]. split; [exact H3|].
  exact (store_then_load _ _ _ _ _ H1 H2 H3).
Defined.

(** X12: what a raising step leaves behind: it printed nothing and did not
    touch the memory nor the call stack; the operand stack lost at most
    the items popped before the test that failed, never gained one; the
    instruction pointer is past the failing instruction, except for the
    [IndexError] of the fetch, which leaves the machine as it was. *)
Theorem fault_leaves vm f vm' out :
  execute_instruction vm = (Raise f, vm', out) →
  out = [] ∧ memory vm' = memory vm ∧ call_stack vm' = call_stack vm ∧
  stack vm' `suffix_of` stack vm ∧
  (f = IndexOutOfRange → vm' = vm) ∧
  (f ≠ IndexOutOfRange → ip vm' = ip vm + 1).
Proof.
  destruct (execute_cases vm) as [[_ ->]|[[_ ->]|(i & o & Hf & ->)]].
  - done.
  - intros [= <- <- <-]. done.
  - intros H. unfold dispatch, binary, out_of_bounds in H.
    repeat (case_match; simplify_eq/=; try done);
      repeat split; try done;
      first [ by exists [] | by eexists [_] | by eexists [_; _] ].
Qed.

Lemma fault_leaves_witness :
  execute_instruction (mkVM [0; 7] [] [] [(DIV, None)] 0 true)
    = (Raise DivisionByZero, mkVM [7] [] [] [(DIV, None)] 1 true, []) ∧
  [7] `suffix_of` [0; 7].
Proof.
  assert (H : execute_instruction (mkVM [0; 7] [] [] [(DIV, None)] 0 true)
              = (Raise DivisionByZero, mkVM [7] [] [] [(DIV, None)] 1 true, []))
    by reflexivity.
  split; [exact H|].
  destruct (fault_leaves _ _ _ _ H) as (_ & _ & _ & Hsuffix & _).
  exact Hsuffix.
Defined.

Lemma dispatch_no_index_error i o vm vm' out :
  dispatch i o vm ≠ (Raise IndexOutOfRange, vm', out).
Proof.
  unfold dispatch, binary. intros H.
  repeat (case_match; simplify_eq/=; try done).
Qed.

(** X13: the fetch raises [IndexError] exactly when the instruction pointer
    is below [-len(program)]; no other instruction pointer and no opcode
    produces it. *)
Theorem index_error_iff vm :
  (∃ vm' out, execute_instruction vm = (Raise IndexOutOfRange, vm', out)) ↔
  ip vm < - Z.of_nat (length (program vm)).
Proof.
  destruct (execute_cases vm) as [[Hge He]|[[Hlow He]|(i & o & [Hlt Hget] & He)]];
    rewrite He.
  - split; [by intros (? & ? & ?)|lia].
  - split; [done|eauto].
  - split.
    + intros (vm' & out & H). by apply dispatch_no_index_error in H.
    + intros Hlow. unfold getitem in Hget.
      destruct (Z.leb_spec 0 (ip vm)); [lia|].
      by destruct (Z.leb_spec (- Z.of_nat (length (program vm))) (ip vm)); [lia|].
Qed.

Lemma index_error_iff_witness :
  ip (mkVM [] [] [] [(HALT, None)] (-2) true)
    < - Z.of_nat (length (program (mkVM [] [] [] [(HALT, None)] (-2) true))) ∧
  ∃ vm' out,
    execute_instruction (mkVM [] [] [] [(HALT, None)] (-2) true)
      = (Raise IndexOutOfRange, vm', out).
Proof.
  assert (H : ip (mkVM [] [] [] [(HALT, None)] (-2) true)
              < - Z.of_nat (length (program (mkVM [] [] [] [(HALT, None)] (-2) true))))
    by (simpl; lia).
  split; [exact H|]. exact (proj2 (index_error_iff _) H).
Defined.

(** X14: a step that returns [True] changes the depth of the operand stack
    by what the opcode pushes minus what it pops. *)
Theorem stack_depth vm i o vm' out :
  fetches vm i o →
  execute_instruction vm = (Continue, vm', out) →
  (length (stack vm') + pops i = length (stack vm) + pushes i)%nat.
Proof.
  intros Hf. rewrite (execute_fetch _ _ _ Hf).
  unfold dispatch, binary, out_of_bounds. intros H.
  destruct i; simpl in *; try discriminate;
    repeat (case_match; simplify_eq/=; try done); lia.
Qed.

Lemma stack_depth_witness :
  fetches before_div DIV None ∧
  execute_instruction before_div
    = (Continue, mkVM [-4] [] [] [(DIV, None)] 1 true, []) ∧
  (1 + pops DIV = length (stack before_div) + pushes DIV)%nat.
Proof.
  assert (H1 : fetches before_div DIV None) by (split; reflexivity).
  assert (H2 : execute_instruction before_div
               = (Continue, mkVM [-4] [] [] [(DIV, None)] 1 true, []))
    by reflexivity.
  split; [exact H1|]. split; [exact H2|].
  exact (stack_depth _ _ _ _ _ H1 H2).
Defined.

(** X15: [CALL] and [RET] match: [CALL] leaves the operand stack alone and
    jumps to its operand; a [RET] executed on the call stack that [CALL]
    left returns to the instruction after the [CALL] and restores the call
    stack the [CALL] found, leaving the operand stack alone too. *)
Theorem call_then_ret vm target :
  fetches vm CALL (Some target) →
  ∃ vm1,
    execute_instruction vm = (Continue, vm1, []) ∧
    ip vm1 = target ∧ stack vm1 = stack vm ∧ memory vm1 = memory vm ∧
    ∀ vm2 o2,
      call_stack vm2 = call_stack vm1 → fetches vm2 RET o2 →
      ∃ vm3,
        execute_instruction vm2 = (Continue, vm3, []) ∧
        ip vm3 = ip vm + 1 ∧ call_stack vm3 = call_stack vm ∧
        stack vm3 = stack vm2 ∧ memory vm3 = memory vm2.
Proof.
  intros Hf. rewrite (execute_fetch _ _ _ Hf). simpl.
  eexists. split; [done|]. simpl. repeat split.
  intros vm2 o2 Hc Hf2. rewrite (execute_fetch _ _ _ Hf2). simpl. rewrite Hc.
  eexists. split; [done|]. done.
Qed.

Lemma call_then_ret_witness :
  fetches before_call CALL (Some 7) ∧
  ∃ vm1,
    execute_instruction before_call = (Continue, vm1, []) ∧
    ip vm1 = 7 ∧ stack vm1 = stack before_call ∧ memory vm1 = memory before_call ∧
    ∀ vm2 o2,
      call_stack vm2 = call_stack vm1 → fetches vm2 RET o2 →
      ∃ vm3,
        execute_instruction vm2 = (Continue, vm3, []) ∧
        ip vm3 = ip before_call + 1 ∧ call_stack vm3 = call_stack before_call ∧
        stack vm3 = stack vm2 ∧ memory vm3 = memory vm2.
Proof.
  assert (H : fetches before_call CALL (Some 7)) by (split; reflexivity).
  split; [exact H|]. exact (call_then_ret _ _ H).
Defined.

(** X16: on the memory of a machine just built with [memory_size = n],
    [LOAD] of an address in [0, n) pushes 0 and [LOAD] of any other address
    raises the out-of-bounds error; when [n] is zero or negative the
    memory is empty and every address is out of bounds. *)
Theorem fresh_memory n vm o a s :
  memory vm = memory (new n) →
  fetches vm LOAD o →
  stack vm = a :: s →
  execute_instruction vm
    = if decide (0 ≤ a < n)
      then (Continue, with_stack (0 :: s) (with_ip (ip vm + 1) vm), [])
      else (Raise (MemoryOutOfBounds a), with_stack s (with_ip (ip vm + 1) vm), []).
Proof.
  intros Hm Hf Hs. rewrite (execute_fetch _ _ _ Hf). simpl. rewrite Hs.
  unfold out_of_bounds. simpl. rewrite Hm. simpl. rewrite length_replicate.
  destruct (decide (0 ≤ a < n)) as [Hin|Hout].
  - destruct (Z.ltb_spec a 0); [lia|].
    destruct (Z.leb_spec (Z.of_nat (Z.to_nat n)) a); [lia|]. simpl.
    rewrite nth_lookup, lookup_replicate_2 by lia. done.
  - destruct (Z.ltb_spec a 0); [done|].
    destruct (Z.leb_spec (Z.of_nat (Z.to_nat n)) a); [done|lia].
Qed.

Lemma fresh_memory_witness :
  memory (with_stack [3] (load_program [(LOAD, None)] (new 0))) = memory (new 0) ∧
  fetches (with_stack [3] (load_program [(LOAD, None)] (new 0))) LOAD None ∧
  stack (with_stack [3] (load_program [(LOAD, None)] (new 0))) = [3] ∧
  execute_instruction (with_stack [3] (load_program [(LOAD, None)] (new 0)))
    = (Raise (MemoryOutOfBounds 3), mkVM [] [] [] [(LOAD, None)] 1 false, []).
Proof.
  assert (H1 : memory (with_stack [3] (load_program [(LOAD, None)] (new 0)))
               = memory (new 0)) by reflexivity.
  assert (H2 : fetches (with_stack [3] (load_program [(LOAD, None)] (new 0)))
                 LOAD None) by (split; reflexivity).
  assert (H3 : stack (with_stack [3] (load_program [(LOAD, None)] (new 0))) = [3])
    by reflexivity.
  split; [exact H1|]. split; [exact H2|]. split; [exact H3|].
  exact (fresh_memory 0 _ _ _ _ H1 H2 H3).
Defined.

End StepMore.

(** ** More about runs *)

Section RunMore.
Import VirtualMachine.

Lemma nonneg_targets_lookup p k i target :
  nonneg_targets p = true → p !! k = Some (i, Some target) →
  takes_target i = true → 0 ≤ target.
Proof.
  unfold nonneg_targets. rewrite forallb_forall. intros Hall Hk Hj.
  specialize (Hall (i, Some target)). simpl in Hall.
  rewrite Hj in Hall. simpl in Hall.
  apply Z.leb_le, Hall, list_elem_of_In, list_elem_of_lookup. eauto.
Qed.

Lemma straight_line_lookup p k i o :
  straight_line p = true → p !! k = Some (i, o) → is_jump i = false.
Proof.
  unfold straight_line. rewrite forallb_forall. intros Hall Hk.
  apply negb_true_iff, (Hall (i, o)), list_elem_of_In, list_elem_of_lookup.
  eauto.
Qed.

Lemma fetches_lookup vm i o :
  0 ≤ ip vm → fetches vm i o → program vm !! Z.to_nat (ip vm) = Some (i, o).
Proof. intros Hip [_ Hget]. by rewrite getitem_nonneg in Hget. Qed.

(** An opcode that is no jump leaves the instruction pointer where the
    fetch put it. *)
Lemma dispatch_straight i o vm vm' out :
  is_jump i = false → dispatch i o vm = (Continue, vm', out) →
  ip vm' = ip vm ∧ call_stack vm' = call_stack vm.
Proof.
  unfold dispatch, binary. intros Hj H.
  destruct i; simpl in Hj; try discriminate;
    repeat (case_match; simplify_eq/=; try done).
Qed.

Lemma nonneg_step vm vm' out :
  nonneg_state vm → execute_instruction vm = (Continue, vm', out) →
  nonneg_state vm'.
Proof.
  intros (Hip & Hcs & Hp).
  destruct (execute_cases vm) as [[_ ->]|[[_ ->]|(i & o & Hf & ->)]];
    [done..|].
  intros H. pose proof (fetches_lookup _ _ _ Hip Hf) as Hk.
  destruct (dispatch_keeps _ _ _ _ _ _ H) as (Hprog & _ & _). simpl in Hprog.
  assert (Ht : ∀ t, o = Some t → takes_target i = true → 0 ≤ t).
  { intros t -> Hj. by eapply nonneg_targets_lookup. }
  assert (Hhd : ∀ a c, call_stack vm = a :: c → 0 ≤ a ∧ Forall (λ x, 0 ≤ x) c).
  { intros a c Hc. rewrite Hc in Hcs. by apply Forall_cons in Hcs. }
  unfold nonneg_state. rewrite Hprog. split; [|split; [|done]].
  - destruct (is_jump i) eqn:Hj.
    + destruct i; simpl in Hj, H; try discriminate;
        repeat (case_match; simplify_eq/=; try lia);
        try (by apply Ht); by eapply Hhd.
    + destruct (dispatch_straight _ _ _ _ _ Hj H) as [-> _]. simpl. lia.
  - destruct (is_jump i) eqn:Hj.
    + destruct i; simpl in Hj, H; try discriminate;
        repeat (case_match; simplify_eq/=; try done).
      * constructor; [lia|done].
      * by eapply Hhd.
    + by destruct (dispatch_straight _ _ _ _ _ Hj H) as [_ ->].
Qed.

Lemma steps_nonneg vm out vm1 :
  steps vm out vm1 → nonneg_state vm → nonneg_state vm1.
Proof.
  induction 1 as [|vm vm1 vm2 out out' H _ IH]; [done|].
  intros Hn. by eapply IH, nonneg_step.
Qed.

(** X17: a program in which no [JMP], [JZ], [JNZ] or [CALL] has a negative
    operand (whatever the operands of the other opcodes, [RET] included)
    keeps the instruction pointer and the return addresses non-negative
    from [load_program] on, so the fetch never raises [IndexError] during
    its run. *)
Theorem nonneg_targets_no_index_error p vm out vm1 :
  nonneg_targets p = true →
  steps (with_running true (load_program p vm)) out vm1 →
  0 ≤ ip vm1 ∧ Forall (λ address, 0 ≤ address) (call_stack vm1) ∧
  ∀ vm2 out2, execute_instruction vm1 ≠ (Raise IndexOutOfRange, vm2, out2).
Proof.
  intros Hp Hs.
  assert (Hn : nonneg_state vm1).
  { apply (steps_nonneg _ _ _ Hs). split; [done|]. split; [constructor|done]. }
  destruct Hn as (Hip & Hcs & _). split; [done|]. split; [done|].
  intros vm2 out2 H.
  destruct (execute_cases vm1) as [[_ He]|[[Hlow _]|(i & o & _ & He)]].
  - by rewrite He in H.
  - lia.
  - rewrite He in H. by apply dispatch_no_index_error in H.
Qed.

Lemma nonneg_targets_no_index_error_witness :
  nonneg_targets [(CALL, Some 7); (RET, Some (-1))] = true ∧
  steps (with_running true
           (load_program [(CALL, Some 7); (RET, Some (-1))] (new 0)))
        [] (mkVM [] [] [1] [(CALL, Some 7); (RET, Some (-1))] 7 true) ∧
  0 ≤ 7.
Proof.
  assert (H1 : nonneg_targets [(CALL, Some 7); (RET, Some (-1))] = true)
    by reflexivity.
  assert (H2 : steps (with_running true
                        (load_program [(CALL, Some 7); (RET, Some (-1))] (new 0)))
                 [] (mkVM [] [] [1] [(CALL, Some 7); (RET, Some (-1))] 7 true)).
  { eapply steps_next_eq; [reflexivity|apply steps_refl|reflexivity]. }
  split; [exact H1|]. split; [exact H2|].
  exact (proj1 (nonneg_targets_no_index_error _ _ _ _ H1 H2)).
Defined.

Lemma loop_straight_line vm :
  straight_line (program vm) = true → running vm = true → 0 ≤ ip vm →
  ∀ fuel, (Z.to_nat (Z.of_nat (length (program vm)) - ip vm) < fuel)%nat →
  ∃ result, loop fuel vm = Some result.
Proof.
  intros Hp Hr Hip fuel. revert vm Hp Hr Hip.
  induction fuel as [|fuel IH]; intros vm Hp Hr Hip Hfuel; [lia|].
  simpl. rewrite Hr.
  destruct (execute_cases vm) as [[_ ->]|[[_ ->]|(i & o & Hf & ->)]];
    [eauto..|].
  destruct (dispatch i o (with_ip (ip vm + 1) vm)) as [[[| |f] vm'] out] eqn:Hd;
    [|eauto..].
  pose proof (fetches_lookup _ _ _ Hip Hf) as Hk.
  pose proof (straight_line_lookup _ _ _ _ Hp Hk) as Hj.
  destruct (dispatch_straight _ _ _ _ _ Hj Hd) as [Hip' _].
  destruct (dispatch_keeps _ _ _ _ _ _ Hd) as (Hprog & Hrun & _).
  simpl in Hip', Hprog, Hrun. destruct Hf as [Hlt _].
  destruct (IH vm') as [[[r vm''] out'] ->]; [congruence..|lia| |by eauto].
  rewrite Hprog, Hip'. lia.
Qed.

(** X18: a program without jump, call or return stops by itself: loaded on
    any machine, [run] returns after at most one step per instruction
    plus the end-of-program test. *)
Theorem straight_line_terminates p vm :
  straight_line p = true →
  ∃ result, ∀ n, (S (length p) ≤ n)%nat →
    run n (load_program p vm) = Some result.
Proof.
  intros Hp.
  destruct (loop_straight_line (with_running true (load_program p vm)) Hp
              eq_refl ltac:(done) (S (length p))) as [[[r vm'] out] Hl].
  { simpl. lia. }
  assert (Hrun : ∃ result, run (S (length p)) (load_program p vm) = Some result).
  { unfold run. rewrite Hl. simpl. destruct r; eauto. }
  destruct Hrun as [result Hrun]. exists result.
  intros n Hn. by eapply run_mono.
Qed.

Lemma straight_line_terminates_witness :
  straight_line [(PUSH, Some 1); (PUSH, Some 2); (ADD, None); (PRINT, None)] = true ∧
  ∃ result, ∀ n, (5 ≤ n)%nat →
    run n (load_program
             [(PUSH, Some 1); (PUSH, Some 2); (ADD, None); (PRINT, None)] (new 0))
      = Some result.
Proof.
  assert (H : straight_line
                [(PUSH, Some 1); (PUSH, Some 2); (ADD, None); (PRINT, None)] = true)
    by reflexivity.
  split; [exact H|]. exact (straight_line_terminates _ (new 0) H).
Defined.

(** X19: [run] has no step budget: on a machine about to execute a [JMP]
    to its own index, no amount of fuel makes [run] return. *)
Theorem self_jump_never_returns vm :
  fetches vm JMP (Some (ip vm)) → ∀ fuel, run fuel vm = None.
Proof.
  intros Hf fuel. unfold run.
  assert (Hloop : loop fuel (with_running true vm) = None).
  { assert (Hf' : fetches (with_running true vm) JMP (Some (ip vm))) by done.
    induction fuel as [|fuel IH]; [done|]. simpl.
    rewrite (execute_fetch _ _ _ Hf'). simpl.
    replace (with_ip (ip vm) (with_ip (ip vm + 1) (with_running true vm)))
      with (with_running true vm) by (by destruct vm).
    by rewrite IH. }
  by rewrite Hloop.
Qed.

Lemma self_jump_never_returns_witness :
  fetches spinning JMP (Some (ip spinning)) ∧ run 1000 spinning = None.
Proof.
  assert (H : fetches spinning JMP (Some (ip spinning))) by (split; reflexivity).
  split; [exact H|]. exact (self_jump_never_returns _ H 1000%nat).
Defined.

(** X20: [run] does not reload: it starts from the instruction pointer the
    machine has.  On a machine whose pointer is at or past the end of the
    program (nothing loaded, an empty program, a program already run to
    its end) it returns at once, prints nothing and changes nothing but
    [running], which it leaves [False]. *)
Theorem run_past_end vm fuel :
  Z.of_nat (length (program vm)) ≤ ip vm →
  run (S fuel) vm = Some (Ok (), with_running false vm, []).
Proof.
  intros H. unfold run. simpl.
  by rewrite (execute_past_end (with_running true vm)) by done.
Qed.

Lemma run_past_end_witness :
  Z.of_nat (length (program past_end)) ≤ ip past_end ∧
  run 1 past_end = Some (Ok (), past_end, []).
Proof.
  assert (H : Z.of_nat (length (program past_end)) ≤ ip past_end)
    by (simpl; lia).
  split; [exact H|]. exact (run_past_end past_end 0 H).
Defined.

End RunMore.

(** ** Faults and later runs *)

Section Faults.
Import VirtualMachine LanguageModel.

(** A handler that raises leaves the instruction pointer where the fetch
    put it, past the failing instruction. *)
Lemma raise_advances vm f vm' out :
  execute_instruction vm = (Raise f, vm', out) →
  f ≠ IndexOutOfRange → ip vm' = ip vm + 1.
Proof.
  destruct (execute_cases vm) as [[_ ->]|[[_ ->]|(i & o & Hf & ->)]].
  - done.
  - by intros [= <- _ _].
  - intros H _. unfold dispatch, binary, out_of_bounds in H.
    repeat (case_match; simplify_eq/=; try done).
Qed.

(** [run] assigns [running] before it reads it. *)
Lemma run_ignores_running n vm b : run n (with_running b vm) = run n vm.
Proof. done. Qed.

(** C5 (amended): a fault ends the run at once.  If, after any number of
    good steps, a call of [execute_instruction] raises, then [run] returns
    (for every fuel large enough) without raising: the output is what the
    good steps printed followed by the one line [Runtime error: ...] with
    the text of the fault, and no call of [run] ever ends with the
    exception in flight.  The machine records no fault: it is the one the
    failing call left, the instruction pointer past the failing
    instruction (the [IndexError] of the fetch apart), with [running]
    reset as after any stop; [run] overwrites that flag before reading
    it, so a later [run] starts from that very state.
    [div_zero_source] ends by the fault, the divisor popped and the
    dividend still stacked; on [resume_source] the first run faults at
    [ADD] and a second run, without load, goes on with the next
    instruction and prints 7. *)
Theorem fault_is_terminal :
  (∀ vm out vm1 f vm2 out2,
     steps (with_running true vm) out vm1 →
     execute_instruction vm1 = (Raise f, vm2, out2) →
     (f ≠ IndexOutOfRange → ip vm2 = ip vm1 + 1) ∧
     (∀ m, run m (with_running false vm2) = run m vm2) ∧
     ∃ fuel, ∀ n, (fuel ≤ n)%nat →
       run n vm = Some (Ok (), with_running false vm2,
                        (out ++ out2) ++ ["Runtime error: " +:+ message f])) ∧
  (∀ n vm r vm' out,
     run n vm = Some (r, vm', out) → r = Ok () ∧ running vm' = false) ∧
  (∀ n vm b, run n (with_running b vm) = run n vm) ∧
  (message (MissingOperand PUSH) = "PUSH instruction requires an operand" ∧
   message (MissingOperand JMP) = "JMP instruction requires an operand" ∧
   message (MissingOperand CALL) = "CALL instruction requires an operand" ∧
   message StackUnderflow = "Stack underflow" ∧
   message DivisionByZero = "Division by zero" ∧
   message CallStackUnderflow = "Call stack underflow" ∧
   message IndexOutOfRange = "list index out of range" ∧
   ∀ address,
     message (MemoryOutOfBounds address)
       = "Memory address out of bounds: " +:+ Py.str address) ∧
  (∃ vm,
     (∀ n, (3 ≤ n)%nat →
        compile_and_run n (new 1024) div_zero_source
          = Ok (Some (Ok (), vm, ["Runtime error: Division by zero"]))) ∧
     stack vm = [1] ∧ ip vm = 3 ∧ running vm = false) ∧
  (∃ faulted halted,
     (∀ n, (1 ≤ n)%nat →
        compile_and_run n (new 1024) resume_source
          = Ok (Some (Ok (), faulted, ["Runtime error: Stack underflow"]))) ∧
     ip faulted = 1 ∧ running faulted = false ∧
     (∀ n, (3 ≤ n)%nat → run n faulted = Some (Ok (), halted, ["7"])) ∧
     ip halted = 4 ∧ running halted = false).
Proof.
  split; [|split; [|split; [|split; [|split]]]].
  - intros vm out vm1 f vm2 out2 Hs Hf.
    split; [by eapply raise_advances|]. split; [done|].
    destruct (loop_fault (with_running true vm) _ _ _ _ _ eq_refl Hs Hf)
      as [fuel Hfuel].
    exists fuel. intros n Hn. unfold run.
    by rewrite (loop_mono _ _ _ Hfuel n Hn).
  - intros n vm r vm' out. unfold run.
    destruct (loop n _) as [[[[[]|f] vm1] out1]|]; simpl; intros H;
      by simplify_eq.
  - done.
  - done.
  - eexists. split.
    + intros n Hn. eapply compile_and_run_mono; [|exact Hn].
      vm_compute. reflexivity.
    + done.
  - eexists _, _. split.
    { intros n Hn. eapply compile_and_run_mono; [|exact Hn].
      vm_compute. reflexivity. }
    split; [reflexivity|]. split; [reflexivity|]. split.
    { intros n Hn. eapply run_mono; [|exact Hn]. vm_compute. reflexivity. }
    done.
Qed.

Lemma fault_is_terminal_witness :
  steps (with_running true before_add) [] (with_running true before_add) ∧
  execute_instruction (with_running true before_add)
    = (Raise StackUnderflow, with_ip 1 before_add, []) ∧
  ∃ fuel, ∀ n, (fuel ≤ n)%nat →
    run n before_add
      = Some (Ok (), with_running false (with_ip 1 before_add),
              ([] ++ []) ++ ["Runtime error: " +:+ message StackUnderflow]).
Proof.
  assert (Hs : steps (with_running true before_add) [] (with_running true before_add))
    by constructor.
  assert (He : execute_instruction (with_running true before_add)
               = (Raise StackUnderflow, with_ip 1 before_add, []))
    by reflexivity.
  split; [exact Hs|]. split; [exact He|].
  exact (proj2 (proj2 (proj1 fault_is_terminal _ _ _ _ _ _ Hs He))).
Defined.

(** Counterexample to C5 as stated: the fault leaves no Faulted state.
    After the run of [resume_source] has faulted at [ADD], the machine has
    [running] reset like a machine that stopped, and a second [run] on it,
    without load, executes the rest of the program and prints 7. *)
Lemma run_resumes_after_fault :
  ∃ faulted halted,
    compile_and_run 5 (new 1024) resume_source
      = Ok (Some (Ok (), faulted, ["Runtime error: Stack underflow"])) ∧
    running faulted = false ∧ ip faulted = 1 ∧
    run 5 faulted = Some (Ok (), halted, ["7"]) ∧
    running halted = false ∧ ip halted = 4.
Proof.
  eexists _, _. split; [vm_compute; reflexivity|].
  split; [reflexivity|]. split; [reflexivity|].
  split; [vm_compute; reflexivity|]. done.
Qed.

End Faults.
